(** * wrappai: persistence entities and the notification payload codec

    A shallow embedding of the TypeORM entities under [src/domain] and of
    the two methods of [Notification] that have behaviour of their own,
    [compressMessage] and [getMessage].

    Layout of the development:
    - [Utf8]: the UTF-8 conversions behind [Buffer.toString("utf-8")] and
      [Buffer.from(string)];
    - [JS]: the run-time values of the [message] field and JavaScript errors;
    - [Zlib]: the interface of [node:zlib] used by the entity ([deflate],
      [unzip]) and a stored-block codec in the zlib container format;
    - [Async]: promise-returning code with a console, as a state and error
      monad;
    - [TypeORM]: column and relation options as written in the decorators,
      and the write path of the store (inserts and updates under the
      constraints, defaults and unique columns that are declared);
    - one module per entity class, named after the class;
    - the facts proved about them. *)

From Stdlib Require Import List String NArith ZArith Lia Bool.
From Stdlib.Strings Require Import Byte.
Import ListNotations.
Local Open Scope string_scope.
Local Open Scope list_scope.
Local Open Scope N_scope.

(** ** UTF-8 *)

(** JavaScript strings are read as sequences of code points; a lone
    surrogate is a code point in [0xD800, 0xDFFF].  [decode] is the
    replacing decoder of [buffer.toString("utf-8")]: every maximal ill-formed
    byte sequence becomes U+FFFD.  [encode] is [Buffer.from(string, "utf-8")]:
    a lone surrogate is written as U+FFFD. *)
Module Utf8.

Definition REPLACEMENT : N := 0xFFFD.

Definition is_scalar (c : N) : bool :=
  (c <? 0xD800) || ((0xE000 <=? c) && (c <=? 0x10FFFF)).

Definition byte_of_N (n : N) : byte :=
  match Byte.of_N (n mod 256) with Some b => b | None => x00 end.

Definition encode_scalar (c : N) : list byte :=
  if c <? 0x80 then [byte_of_N c]
  else if c <? 0x800 then
    [byte_of_N (0xC0 + c / 64); byte_of_N (0x80 + c mod 64)]
  else if c <? 0x10000 then
    [byte_of_N (0xE0 + c / 4096); byte_of_N (0x80 + (c / 64) mod 64);
     byte_of_N (0x80 + c mod 64)]
  else
    [byte_of_N (0xF0 + c / 262144); byte_of_N (0x80 + (c / 4096) mod 64);
     byte_of_N (0x80 + (c / 64) mod 64); byte_of_N (0x80 + c mod 64)].

Definition encode_codepoint (c : N) : list byte :=
  if is_scalar c then encode_scalar c else encode_scalar REPLACEMENT.

Definition encode (s : list N) : list byte := flat_map encode_codepoint s.

Definition in_range (lo hi : N) (b : byte) : bool :=
  (lo <=? Byte.to_N b) && (Byte.to_N b <=? hi).

Definition continuation (b : byte) : bool := in_range 0x80 0xBF b.

Definition payload (b : byte) : N := Byte.to_N b mod 64.

(** Bounds of the second byte, which depend on the lead byte. *)
Definition second_lo (lead : N) : N :=
  if lead =? 0xE0 then 0xA0 else if lead =? 0xF0 then 0x90 else 0x80.

Definition second_hi (lead : N) : N :=
  if lead =? 0xED then 0x9F else if lead =? 0xF4 then 0x8F else 0xBF.

(** One decoding step at lead byte [b0] followed by [r]; [dec] decodes
    the bytes that remain.  A byte that cannot continue the sequence is
    not consumed: decoding resumes at it. *)
Definition decode_step (dec : list byte -> list N)
    (b0 : byte) (r : list byte) : list N :=
  let n0 := Byte.to_N b0 in
  if n0 <? 0x80 then n0 :: dec r
  else if in_range 0xC2 0xDF b0 then
    match r with
    | b1 :: r1 =>
      if continuation b1
      then ((n0 - 0xC0) * 64 + payload b1) :: dec r1
      else REPLACEMENT :: dec r
    | [] => [REPLACEMENT]
    end
  else if in_range 0xE0 0xEF b0 then
    match r with
    | b1 :: r1 =>
      if in_range (second_lo n0) (second_hi n0) b1 then
        match r1 with
        | b2 :: r2 =>
          if continuation b2
          then ((n0 - 0xE0) * 4096 + payload b1 * 64 + payload b2) :: dec r2
          else REPLACEMENT :: dec r1
        | [] => [REPLACEMENT]
        end
      else REPLACEMENT :: dec r
    | [] => [REPLACEMENT]
    end
  else if in_range 0xF0 0xF4 b0 then
    match r with
    | b1 :: r1 =>
      if in_range (second_lo n0) (second_hi n0) b1 then
        match r1 with
        | b2 :: r2 =>
          if continuation b2 then
            match r2 with
            | b3 :: r3 =>
              if continuation b3
              then ((n0 - 0xF0) * 262144 + payload b1 * 4096
                    + payload b2 * 64 + payload b3) :: dec r3
              else REPLACEMENT :: dec r2
            | [] => [REPLACEMENT]
            end
          else REPLACEMENT :: dec r1
        | [] => [REPLACEMENT]
        end
      else REPLACEMENT :: dec r
    | [] => [REPLACEMENT]
    end
  else REPLACEMENT :: dec r.

Fixpoint decode (bs : list byte) : list N :=
  match bs with
  | [] => []
  | b0 :: r => decode_step decode b0 r
  end.

(** A string without lone surrogates. *)
Definition well_formed (s : list N) : Prop :=
  Forall (fun c => is_scalar c = true) s.

(** The code points of an ASCII literal. *)
Definition of_string (s : string) : list N :=
  map (fun a => N.of_nat (Ascii.nat_of_ascii a)) (list_ascii_of_string s).

End Utf8.

(** ** JavaScript values and errors *)

Module JS.

(** [TypeError], [RangeError] and [ZlibError] come from the run time and
    from [node:zlib].  The source declares no error class of its own and
    leaves the rejection of a write to the store; the two errors of the
    store's write path carry the names of the spec's taxonomy
    ([ValidationError]: a required value missing, a value that its
    column does not take; [ConflictError]: a uniqueness violation). *)
Inductive Error : Type :=
| TypeError (message : string)
| RangeError (code : string)
| ZlibError (code : string)
| ValidationError (column : string) (reason : string)
| ConflictError (column : string).

(** What the [message] property of a [Notification] object can hold at
    run time.  It is declared [Buffer]; a fresh object leaves it
    [undefined], and a string assigned through a cast is handled by both
    methods ([String.prototype.toString] ignores its argument). *)
Inductive Value : Type :=
| undefined
| null
| Str (s : list N)
| Buf (b : list byte).

(** [if (v)]: [undefined], [null] and the empty string are falsy; every
    object, an empty [Buffer] included, is truthy. *)
Definition truthy (v : Value) : bool :=
  match v with
  | undefined | null => false
  | Str [] => false
  | Str (_ :: _) => true
  | Buf _ => true
  end.

(** [v.toString("utf-8")] *)
Definition toString (v : Value) : Error + list N :=
  match v with
  | Buf b => inr (Utf8.decode b)
  | Str s => inr s
  | undefined => inl (TypeError "Cannot read properties of undefined")
  | null => inl (TypeError "Cannot read properties of null")
  end.

(** [Buffer.from(v)] *)
Definition Buffer_from (v : Value) : Error + list byte :=
  match v with
  | Buf b => inr b
  | Str s => inr (Utf8.encode s)
  | undefined | null => inl (TypeError "ERR_INVALID_ARG_TYPE")
  end.

End JS.

(** ** node:zlib *)

(** The entity imports [deflate] and [unzip] from [node:zlib]; both can
    fail, and the entity catches their failures.  [Codec] is that
    interface; [Lawful] is the contract of the library: what [deflate]
    produced, [unzip] restores. *)
Module Zlib.

Class Codec : Type := {
  deflate : list byte -> JS.Error + list byte;
  unzip : list byte -> JS.Error + list byte
}.

Definition Lawful (Z : Codec) : Prop :=
  forall m c, deflate m = inr c -> unzip c = inr m.

(** *** A codec in the zlib container format (RFC 1950) with stored
    blocks (RFC 1951, BTYPE = 00), which is what zlib writes at level 0.
    [unzip] of this codec reads the same subset: gzip framing and
    Huffman-coded blocks are outside it and reported as errors. *)

Definition adler_step (st : N * N) (b : byte) : N * N :=
  let a := (fst st + Byte.to_N b) mod 65521 in
  (a, (snd st + a) mod 65521).

Definition adler32 (data : list byte) : N :=
  let st := fold_left adler_step data (1, 0) in
  snd st * 65536 + fst st.

Definition be32 (n : N) : list byte :=
  [Utf8.byte_of_N (n / 16777216); Utf8.byte_of_N (n / 65536);
   Utf8.byte_of_N (n / 256); Utf8.byte_of_N n].

Definition le16 (n : N) : list byte :=
  [Utf8.byte_of_N n; Utf8.byte_of_N (n / 256)].

Definition size (data : list byte) : N := N.of_nat (List.length data).

(** The longest stored block. *)
Definition BLOCK : N := 65535.

Definition stored_block (final : bool) (data : list byte) : list byte :=
  (if final then x01 else x00)
    :: le16 (size data) ++ le16 (BLOCK - size data) ++ data.

Fixpoint stored_blocks (fuel : nat) (data : list byte) : list byte :=
  match fuel with
  | S f =>
    if BLOCK <? size data
    then stored_block false (firstn (N.to_nat BLOCK) data)
           ++ stored_blocks f (skipn (N.to_nat BLOCK) data)
    else stored_block true data
  | O => stored_block true data
  end.

Definition stream (data : list byte) : list byte :=
  [x78; x01] ++ stored_blocks (List.length data) data ++ be32 (adler32 data).

(** [deflate] refuses an output longer than [maxOutputLength]
    ([ERR_BUFFER_TOO_LARGE]); Node's default is [buffer.kMaxLength]. *)
Definition deflate_stored (maxOutputLength : N) (data : list byte)
    : JS.Error + list byte :=
  let out := stream data in
  if size out <=? maxOutputLength then inr out
  else inl (JS.RangeError "ERR_BUFFER_TOO_LARGE").

Definition header_ok (cmf flg : byte) : bool :=
  (Byte.to_N cmf mod 16 =? 8) && (Byte.to_N cmf / 16 <=? 7)
  && ((Byte.to_N cmf * 256 + Byte.to_N flg) mod 31 =? 0)
  && ((Byte.to_N flg / 32) mod 2 =? 0).

(** Reads blocks up to the final one; returns the data and the bytes
    that follow the last block. *)
Fixpoint inflate_blocks (fuel : nat) (bs : list byte)
    : JS.Error + (list byte * list byte) :=
  match fuel with
  | O => inl (JS.ZlibError "Z_BUF_ERROR")
  | S f =>
    match bs with
    | hdr :: l0 :: l1 :: n0 :: n1 :: r =>
      if (Byte.to_N hdr / 2) mod 4 =? 0 then
        let len := Byte.to_N l0 + 256 * Byte.to_N l1 in
        let nlen := Byte.to_N n0 + 256 * Byte.to_N n1 in
        if len + nlen =? BLOCK then
          if len <=? size r then
            let chunk := firstn (N.to_nat len) r in
            let rest := skipn (N.to_nat len) r in
            if Byte.to_N hdr mod 2 =? 1 then inr (chunk, rest)
            else
              match inflate_blocks f rest with
              | inr (data, rest') => inr (chunk ++ data, rest')
              | inl e => inl e
              end
          else inl (JS.ZlibError "Z_BUF_ERROR")
        else inl (JS.ZlibError "Z_DATA_ERROR")
      else inl (JS.ZlibError "Z_DATA_ERROR")
    | _ => inl (JS.ZlibError "Z_BUF_ERROR")
    end
  end.

Fixpoint bytes_eqb (x y : list byte) : bool :=
  match x, y with
  | [], [] => true
  | a :: x', b :: y' => Byte.eqb a b && bytes_eqb x' y'
  | _, _ => false
  end.

Definition unzip_stored (bs : list byte) : JS.Error + list byte :=
  match bs with
  | cmf :: flg :: body =>
    if header_ok cmf flg then
      match inflate_blocks (List.length body) body with
      | inr (data, trailer) =>
        if bytes_eqb (firstn 4 trailer) (be32 (adler32 data))
        then inr data
        else inl (JS.ZlibError "Z_DATA_ERROR")
      | inl e => inl e
      end
    else inl (JS.ZlibError "Z_DATA_ERROR")
  | _ => inl (JS.ZlibError "Z_BUF_ERROR")
  end.

Definition stored (maxOutputLength : N) : Codec := {|
  deflate := deflate_stored maxOutputLength;
  unzip := unzip_stored
|}.

(** [buffer.kMaxLength] *)
Definition kMaxLength : N := 2 ^ 53 - 1.

End Zlib.

(** ** Promises and the console *)

(** An [async] method either resolves or rejects, and may write to the
    console on the way: a state monad over the console with errors. *)
Module Async.

Record LogEntry : Type := { label : string; error : JS.Error }.

Definition Console : Type := list LogEntry.

Definition M (A : Type) : Type := Console -> (JS.Error + A) * Console.

Definition ret {A} (a : A) : M A := fun c => (inr a, c).

Definition bind {A B} (m : M A) (k : A -> M B) : M B :=
  fun c =>
    match m c with
    | (inr a, c') => k a c'
    | (inl e, c') => (inl e, c')
    end.

Definition throw {A} (e : JS.Error) : M A := fun c => (inl e, c).

(** [await] of a promise that is already settled. *)
Definition await {A} (r : JS.Error + A) : M A := fun c => (r, c).

(** [try { body } catch (error) { handler }] *)
Definition try_catch {A} (body : M A) (handler : JS.Error -> M A) : M A :=
  fun c =>
    match body c with
    | (inr a, c') => (inr a, c')
    | (inl e, c') => handler e c'
    end.

(** [console.error(label, error)] *)
Definition console_error (l : string) (e : JS.Error) : M unit :=
  fun c => (inr tt, c ++ [{| label := l; error := e |}]).

Module Notations.
Notation "x <- m ;; k" := (bind m (fun x => k))
  (at level 61, m at next level, right associativity).
Notation "m ;;; k" := (bind m (fun _ => k))
  (at level 61, right associativity).
End Notations.

End Async.

(** ** TypeORM metadata and the store *)

Module TypeORM.

Inductive ColumnType : Type :=
| varchar | text | int | bigint | decimal | boolean
| timestamp | date | bytea | enum | simple_array | uuid.

(** A value held in a column. *)
Inductive Cell : Type :=
| NULL
| CStr (s : string)
| CInt (z : Z)
| CBool (b : bool)
| CBytes (b : list byte)
| CTime (t : Z)
| CList (l : list string).

Inductive Default : Type :=
| Lit (c : Cell)
| CURRENT_TIMESTAMP.

(** Which decorator declared the column. *)
Inductive Decorator : Type :=
| ColumnDecorator
| PrimaryGeneratedColumnDecorator
| CreateDateColumnDecorator
| UpdateDateColumnDecorator.

Record ColumnOptions : Type := {
  decorator : Decorator;
  type : ColumnType;
  length : option N;
  nullable : bool;
  unique : bool;
  default : option Default;
  enum_values : list string;
  precision : option N;
  scale : option N;
  onUpdate : option string
}.

(** The keys of the options object of a column decorator. *)
Inductive Setting : Type :=
| Length (n : N)
| Nullable (b : bool)
| Unique (b : bool)
| DefaultTo (d : Default)
| Enum (values : list string)
| Precision (n : N)
| Scale (n : N)
| OnUpdate (s : string).

Definition plain (d : Decorator) (ty : ColumnType) : ColumnOptions := {|
  decorator := d; type := ty; length := None; nullable := false;
  unique := false; default := None; enum_values := []; precision := None;
  scale := None; onUpdate := None
|}.

Definition set (o : ColumnOptions) (s : Setting) : ColumnOptions :=
  match s with
  | Length n =>
    {| decorator := decorator o; type := type o; length := Some n;
       nullable := nullable o; unique := unique o; default := default o;
       enum_values := enum_values o; precision := precision o;
       scale := scale o; onUpdate := onUpdate o |}
  | Nullable b =>
    {| decorator := decorator o; type := type o; length := length o;
       nullable := b; unique := unique o; default := default o;
       enum_values := enum_values o; precision := precision o;
       scale := scale o; onUpdate := onUpdate o |}
  | Unique b =>
    {| decorator := decorator o; type := type o; length := length o;
       nullable := nullable o; unique := b; default := default o;
       enum_values := enum_values o; precision := precision o;
       scale := scale o; onUpdate := onUpdate o |}
  | DefaultTo d =>
    {| decorator := decorator o; type := type o; length := length o;
       nullable := nullable o; unique := unique o; default := Some d;
       enum_values := enum_values o; precision := precision o;
       scale := scale o; onUpdate := onUpdate o |}
  | Enum vs =>
    {| decorator := decorator o; type := type o; length := length o;
       nullable := nullable o; unique := unique o; default := default o;
       enum_values := vs; precision := precision o;
       scale := scale o; onUpdate := onUpdate o |}
  | Precision n =>
    {| decorator := decorator o; type := type o; length := length o;
       nullable := nullable o; unique := unique o; default := default o;
       enum_values := enum_values o; precision := Some n;
       scale := scale o; onUpdate := onUpdate o |}
  | Scale n =>
    {| decorator := decorator o; type := type o; length := length o;
       nullable := nullable o; unique := unique o; default := default o;
       enum_values := enum_values o; precision := precision o;
       scale := Some n; onUpdate := onUpdate o |}
  | OnUpdate s =>
    {| decorator := decorator o; type := type o; length := length o;
       nullable := nullable o; unique := unique o; default := default o;
       enum_values := enum_values o; precision := precision o;
       scale := scale o; onUpdate := Some s |}
  end.

(** [@Column({ type: ty, ...settings })] *)
Definition Column (ty : ColumnType) (settings : list Setting)
    : ColumnOptions :=
  fold_left set settings (plain ColumnDecorator ty).

(** [@PrimaryGeneratedColumn("uuid")] *)
Definition PrimaryGeneratedColumn (ty : ColumnType) : ColumnOptions :=
  plain PrimaryGeneratedColumnDecorator ty.

Definition CreateDateColumn (ty : ColumnType) (settings : list Setting)
    : ColumnOptions :=
  fold_left set settings (plain CreateDateColumnDecorator ty).

Definition UpdateDateColumn (ty : ColumnType) (settings : list Setting)
    : ColumnOptions :=
  fold_left set settings (plain UpdateDateColumnDecorator ty).

Inductive RelationKind : Type := ManyToOne | OneToMany.

(** [@ManyToOne(() => target, (x) => x.inverse, { nullable, onDelete })]
    on a property declared [Relation<declared>]; [None] where the
    decorator leaves an argument or an option out. *)
Record RelationOptions : Type := {
  kind : RelationKind;
  target : string;
  inverse : option string;
  rel_nullable : option bool;
  onDelete : option string;
  declared : string
}.

Record Entity : Type := {
  name : string;
  columns : list (string * ColumnOptions);
  relations : list (string * RelationOptions)
}.

(** [class name extends parent], with the members the class adds. *)
Definition extends (parent : Entity) (n : string)
    (cols : list (string * ColumnOptions))
    (rels : list (string * RelationOptions)) : Entity := {|
  name := n;
  columns := columns parent ++ cols;
  relations := relations parent ++ rels
|}.

Fixpoint assoc {A} (k : string) (l : list (string * A)) : option A :=
  match l with
  | [] => None
  | (k', a) :: l' => if String.eqb k k' then Some a else assoc k l'
  end.

Definition column (E : Entity) (k : string) : option ColumnOptions :=
  assoc k (columns E).

Definition relation (E : Entity) (k : string) : option RelationOptions :=
  assoc k (relations E).

(** *** Rows and tables *)

Definition Row : Type := list (string * Cell).

Definition Table : Type := list Row.

Definition get (r : Row) (k : string) : Cell :=
  match assoc k r with Some c => c | None => NULL end.

Fixpoint strings_eqb (x y : list string) : bool :=
  match x, y with
  | [], [] => true
  | a :: x', b :: y' => String.eqb a b && strings_eqb x' y'
  | _, _ => false
  end.

Definition cell_eqb (x y : Cell) : bool :=
  match x, y with
  | NULL, NULL => true
  | CStr a, CStr b => String.eqb a b
  | CInt a, CInt b => Z.eqb a b
  | CBool a, CBool b => Bool.eqb a b
  | CBytes a, CBytes b => Zlib.bytes_eqb a b
  | CTime a, CTime b => Z.eqb a b
  | CList a, CList b => strings_eqb a b
  | _, _ => false
  end.

Definition is_null (c : Cell) : bool :=
  match c with NULL => true | _ => false end.

(** *** Values as PostgreSQL reads them *)

Definition hex_digit (b : byte) : option N :=
  let n := Byte.to_N b in
  if (48 <=? n) && (n <=? 57) then Some (n - 48)
  else if (65 <=? n) && (n <=? 70) then Some (n - 55)
  else if (97 <=? n) && (n <=? 102) then Some (n - 87)
  else None.

Definition octal_digit (hi : N) (b : byte) : option N :=
  let n := Byte.to_N b in
  if (48 <=? n) && (n <=? 48 + hi) then Some (n - 48) else None.

Definition is_space (b : byte) : bool :=
  match b with
  | x20 | x09 | x0a | x0d => true
  | _ => false
  end.

(** The hex form of a [bytea] value, after its prefix: two digits per
    byte, white space allowed between bytes. *)
Fixpoint hex_decode (bs : list byte) : option (list byte) :=
  match bs with
  | [] => Some []
  | h :: r =>
    if is_space h then hex_decode r
    else
      match r with
      | l :: r' =>
        match hex_digit h, hex_digit l with
        | Some x, Some y =>
          option_map (cons (Utf8.byte_of_N (16 * x + y))) (hex_decode r')
        | _, _ => None
        end
      | [] => None
      end
  end.

(** The escape form of a [bytea] value: a backslash is followed by a
    second backslash or by three octal digits, at most [377]. *)
Fixpoint escape_decode (bs : list byte) : option (list byte) :=
  match bs with
  | [] => Some []
  | x5c :: r =>
    match r with
    | x5c :: r' => option_map (cons x5c) (escape_decode r')
    | a :: b :: c :: r' =>
      match octal_digit 3 a, octal_digit 7 b, octal_digit 7 c with
      | Some x, Some y, Some z =>
        option_map (cons (Utf8.byte_of_N (64 * x + 8 * y + z)))
          (escape_decode r')
      | _, _, _ => None
      end
    | _ => None
    end
  | b :: r => option_map (cons b) (escape_decode r)
  end.

(** A string sent for a [bytea] column is read as the text form of the
    bytes ([byteain]): the hex form when it starts with a backslash and
    an [x], the escape form otherwise.  A NUL character is refused in
    any text parameter. *)
Definition bytea_in (bs : list byte) : option (list byte) :=
  if existsb (Byte.eqb x00) bs then None
  else
    match bs with
    | x5c :: x78 :: r => hex_decode r
    | _ => escape_decode bs
    end.

(** The number of characters of a string that holds UTF-8 text: the
    bytes that do not continue a character. *)
Definition continues (a : Ascii.ascii) : bool :=
  let n := Ascii.N_of_ascii a in (128 <=? n) && (n <? 192).

Fixpoint chars (s : string) : nat :=
  match s with
  | EmptyString => O
  | String a s' => if continues a then chars s' else S (chars s')
  end.

Definition in_bits (w : Z) (z : Z) : bool :=
  ((- 2 ^ (w - 1) <=? z) && (z <? 2 ^ (w - 1)))%Z.

(** What the store objects to in a cell of a column, if anything.  A
    string is accepted in a [varchar(n)] column when it has at most [n]
    characters, and then it is stored as it is.  (PostgreSQL also takes a
    longer string when all that exceeds the length is spaces, and cuts
    them: such a string is refused here, so that every string accepted
    here is accepted there, and stored unchanged.) *)
Definition check_cell (o : ColumnOptions) (c : Cell) : option string :=
  match decorator o with
  | CreateDateColumnDecorator | UpdateDateColumnDecorator => None
  | PrimaryGeneratedColumnDecorator =>
    if is_null c then Some "missing primary key" else None
  | ColumnDecorator =>
    match c with
    | NULL =>
      if nullable o then None
      else match default o with
           | Some _ => None
           | None => Some "null value in a required column"
           end
    | CStr s =>
      match type o with
      | enum =>
        if existsb (String.eqb s) (enum_values o) then None
        else Some "invalid enum value"
      | bytea =>
        match bytea_in (list_byte_of_string s) with
        | Some _ => None
        | None => Some "invalid input syntax for type bytea"
        end
      | _ =>
        match length o with
        | Some n =>
          if N.of_nat (chars s) <=? n then None
          else Some "value too long"
        | None => None
        end
      end
    | CInt z =>
      match type o with
      | int =>
        if in_bits 32 z then None else Some "integer out of range"
      | bigint =>
        if in_bits 64 z then None else Some "bigint out of range"
      | _ => None
      end
    | _ => None
    end
  end.

Fixpoint check_columns (cols : list (string * ColumnOptions)) (r : Row)
    : option JS.Error :=
  match cols with
  | [] => None
  | (k, o) :: cols' =>
    match check_cell o (get r k) with
    | Some why => Some (JS.ValidationError k why)
    | None => check_columns cols' r
    end
  end.

Fixpoint check_relations (rels : list (string * RelationOptions)) (r : Row)
    : option JS.Error :=
  match rels with
  | [] => None
  | (k, o) :: rels' =>
    match kind o, rel_nullable o with
    | ManyToOne, Some false =>
      if is_null (get r k)
      then Some (JS.ValidationError k "null value in a required column")
      else check_relations rels' r
    | _, _ => check_relations rels' r
    end
  end.

Definition check (E : Entity) (r : Row) : option JS.Error :=
  match check_columns (columns E) r with
  | Some e => Some e
  | None => check_relations (relations E) r
  end.

(** The stored form of a value: a string given for a [bytea] column is
    stored as the bytes it denotes. *)
Definition stored_as (o : ColumnOptions) (c : Cell) : Cell :=
  match type o, c with
  | bytea, CStr s =>
    match bytea_in (list_byte_of_string s) with
    | Some b => CBytes b
    | None => c
    end
  | _, _ => c
  end.

(** The cell written for a column by an insert: the store's clock for
    the two date decorators, the default where the row has no value. *)
Definition written (now : Z) (o : ColumnOptions) (c : Cell) : Cell :=
  match decorator o with
  | CreateDateColumnDecorator | UpdateDateColumnDecorator => CTime now
  | _ =>
    match c, default o with
    | NULL, Some (Lit d) => d
    | NULL, Some CURRENT_TIMESTAMP => CTime now
    | _, _ => stored_as o c
    end
  end.

Definition foreign_keys (E : Entity) : list string :=
  map fst (filter (fun kr => match kind (snd kr) with
                             | ManyToOne => true
                             | OneToMany => false
                             end) (relations E)).

Definition write (E : Entity) (now : Z) (r : Row) : Row :=
  map (fun ko => (fst ko, written now (snd ko) (get r (fst ko)))) (columns E)
  ++ map (fun k => (k, get r k)) (foreign_keys E).

Definition unique_columns (E : Entity) : list string :=
  map fst (filter (fun ko =>
                     match decorator (snd ko) with
                     | PrimaryGeneratedColumnDecorator => true
                     | _ => unique (snd ko)
                     end) (columns E)).

(** A row of the table that holds the same non-null value in column [k]. *)
Definition taken (k : string) (r : Row) (t : Table) : bool :=
  negb (is_null (get r k))
  && existsb (fun r' => cell_eqb (get r' k) (get r k)) t.

Definition conflict (ks : list string) (r : Row) (t : Table)
    : option string :=
  find (fun k => taken k r t) ks.

(** No two rows of the table hold the same non-null value in column
    [k]. *)
Fixpoint distinct_on (k : string) (t : Table) : bool :=
  match t with
  | [] => true
  | r :: t' => negb (taken k r t') && distinct_on k t'
  end.

Definition primary : string := "uuid".

Definition same_key (r r' : Row) : bool :=
  cell_eqb (get r' primary) (get r primary).

(** The write path of the store, which belongs to TypeORM and the
    database and not to this repository.  A write is checked against the
    constraints the decorators declare (required columns, enum members,
    column lengths, unique columns) and against the input syntax of the
    column types; a rejected write leaves the table as it was. *)
Definition insert (E : Entity) (now : Z) (r : Row) (t : Table)
    : (JS.Error + unit) * Table :=
  match check E r with
  | Some e => (inl e, t)
  | None =>
    let r' := write E now r in
    match conflict (unique_columns E) r' t with
    | Some k => (inl (JS.ConflictError k), t)
    | None => (inr tt, t ++ [r'])
    end
  end.

Definition replace (r : Row) (t : Table) : Table :=
  map (fun r' => if same_key r r' then r else r') t.

(** *** Updates

    An insert reads the row of the object with [get]: where that is
    [NULL] the object assigns nothing to the column, and the default of
    the column applies.  An update tells a property that was never
    assigned ([undefined]: no entry in the row) from one that holds
    [null] (the entry [NULL]): it writes the entries that differ from
    the stored row, [NULL] included, and leaves every other column
    alone. *)

(** The entries of [r] that differ from the stored row [old]. *)
Definition changes (r old : Row) : Row :=
  filter (fun kc => negb (cell_eqb (get old (fst kc)) (snd kc))) r.

(** What the store objects to in a value that an update assigns. *)
Definition check_assigned_cell (E : Entity) (k : string) (c : Cell)
    : option string :=
  match column E k with
  | Some o =>
    match c with
    | NULL =>
      if nullable o then None else Some "null value in a required column"
    | _ => check_cell o c
    end
  | None =>
    match relation E k with
    | Some ro =>
      match kind ro, rel_nullable ro with
      | ManyToOne, Some false =>
        if is_null c then Some "null value in a required column" else None
      | _, _ => None
      end
    | None => None
    end
  end.

Fixpoint check_assigned (E : Entity) (cs : Row) : option JS.Error :=
  match cs with
  | [] => None
  | (k, c) :: cs' =>
    match check_assigned_cell E k c with
    | Some why => Some (JS.ValidationError k why)
    | None => check_assigned E cs'
    end
  end.

(** The stored row [old] with the changes [cs] written into it: a changed
    column takes the new value, the column of [@UpdateDateColumn] the
    store's clock, and every other column keeps what it held. *)
Definition amend (E : Entity) (now : Z) (cs : Row) (old : Row) : Row :=
  map (fun ko =>
         (fst ko,
          match assoc (fst ko) cs with
          | Some c => stored_as (snd ko) c
          | None =>
            match decorator (snd ko) with
            | UpdateDateColumnDecorator => CTime now
            | _ => get old (fst ko)
            end
          end)) (columns E)
  ++ map (fun k => (k, match assoc k cs with
                       | Some c => c
                       | None => get old k
                       end)) (foreign_keys E).

(** The update of the stored row with the key of [r].  Nothing is
    written when no assigned property differs from the stored row; a
    rejected update leaves the table as it was. *)
Definition update (E : Entity) (now : Z) (r : Row) (t : Table)
    : (JS.Error + unit) * Table :=
  match find (same_key r) t with
  | None => (inr tt, t)
  | Some old =>
    match changes r old with
    | [] => (inr tt, t)
    | cs =>
      match check_assigned E cs with
      | Some e => (inl e, t)
      | None =>
        let r' := amend E now cs old in
        let others := filter (fun x => negb (same_key r x)) t in
        match conflict (unique_columns E) r' others with
        | Some k => (inl (JS.ConflictError k), t)
        | None => (inr tt, replace r' t)
        end
      end
    end
  end.

(** The cell of a column after an update over the stored cell [held]:
    what the object assigns where that differs from the stored cell, and
    the stored cell otherwise. *)
Definition settled (o : ColumnOptions) (given : option Cell) (held : Cell)
    : Cell :=
  match given with
  | Some c => if cell_eqb held c then held else stored_as o c
  | None => held
  end.

End TypeORM.

(** ** The entities *)

Import TypeORM.

(** [abstract class BaseUUIDEntity extends BaseEntity] *)
Module BaseUUIDEntity.

Definition entity : Entity := {|
  name := "BaseUUIDEntity";
  columns :=
    [("uuid", PrimaryGeneratedColumn uuid);
     ("createdAt",
      CreateDateColumn timestamp [DefaultTo CURRENT_TIMESTAMP]);
     ("updatedAt",
      UpdateDateColumn timestamp
        [DefaultTo CURRENT_TIMESTAMP; OnUpdate "CURRENT_TIMESTAMP"])];
  relations := []
|}.

End BaseUUIDEntity.

(** [abstract class BaseMediaItem extends BaseUUIDEntity]: "a base entity
    for all media items (e.g., videos, photos, and music)". *)
Module BaseMediaItem.

Definition entity : Entity :=
  extends BaseUUIDEntity.entity "BaseMediaItem"
    [("url", Column varchar [Length 255]);
     ("title", Column varchar [Length 255]);
     ("description", Column varchar [Length 255; Nullable true]);
     (* Asset life cycle management *)
     ("status", Column varchar [Length 50; DefaultTo (Lit (CStr "active"))]);
     ("archivedAt", Column timestamp [Nullable true]);
     ("deletedAt", Column timestamp [Nullable true]);
     (* Versioning and multiple formats *)
     ("version", Column int [DefaultTo (Lit (CInt 1))]);
     ("availableFormats", Column simple_array [Nullable true]);
     (* File storage and technical details *)
     ("fileSize", Column bigint []);
     ("format", Column varchar [Length 50]);
     ("mimeType", Column varchar [Length 100]);
     ("storagePath", Column varchar [Length 255]);
     ("checksum", Column varchar [Length 64; Nullable true]);
     (* Storage and hosting *)
     ("storageProvider", Column varchar [Length 100]);
     ("hostingLocation", Column varchar [Length 100]);
     (* Tracking and analytics *)
     ("viewCount", Column int [DefaultTo (Lit (CInt 0))]);
     ("downloadCount", Column int [DefaultTo (Lit (CInt 0))]);
     ("lastAccessedAt", Column timestamp [Nullable true]);
     (* Rights management and DRM *)
     ("drmProtected", Column boolean [DefaultTo (Lit (CBool false))]);
     ("drmType", Column varchar [Length 50; Nullable true]);
     ("licenseExpiryDate", Column date [Nullable true]);
     ("regionRestrictions", Column varchar [Length 255; Nullable true]);
     ("downloadAllowed", Column boolean [DefaultTo (Lit (CBool false))]);
     ("streamingAllowed", Column boolean [DefaultTo (Lit (CBool true))])]
    [].

End BaseMediaItem.

Definition many_to_one (tgt : string) (inv : option string)
    (nul : option bool) (del : option string) (ty : string)
    : RelationOptions :=
  {| kind := ManyToOne; target := tgt; inverse := inv; rel_nullable := nul;
     onDelete := del; declared := ty |}.

Definition one_to_many (tgt : string) (inv : option string)
    (nul : option bool) (ty : string) : RelationOptions :=
  {| kind := OneToMany; target := tgt; inverse := inv; rel_nullable := nul;
     onDelete := None; declared := ty |}.

(** [class Music extends BaseUUIDEntity] *)
Module Music.

Definition entity : Entity :=
  extends BaseUUIDEntity.entity "Music"
    [("url", Column varchar [Length 255]);
     ("title", Column varchar [Length 255]);
     ("artist", Column varchar [Length 255]);
     ("album", Column varchar [Length 255; Nullable true]);
     ("genre", Column varchar [Length 100; Nullable true]);
     ("duration", Column int []);
     ("format", Column varchar [Length 50]);
     ("releasedAt", Column timestamp [])]
    (* @ManyToOne(() => Music, (music) => music.playlist, { nullable: true })
       playlist: Relation<Playlist> | null *)
    [("playlist",
      many_to_one "Music" (Some "playlist") (Some true) None "Playlist")].

End Music.

(** [class Photo]: the declaration that extends [BaseMediaItem], and the
    earlier one that extends [BaseUUIDEntity] and lists its columns itself. *)
Module Photo.

Definition entity : Entity :=
  extends BaseMediaItem.entity "Photo"
    [("height", Column int []);
     ("width", Column int []);
     ("capturedAt", Column timestamp [])]
    [("playlist",
      many_to_one "Photo" (Some "playlist") (Some true) None "Playlist")].

Definition entity_flat : Entity :=
  extends BaseUUIDEntity.entity "Photo"
    [("url", Column varchar [Length 255]);
     ("title", Column varchar [Length 255]);
     ("description", Column varchar [Length 255; Nullable true]);
     ("height", Column int []);
     ("width", Column int []);
     ("format", Column varchar [Length 50]);
     ("capturedAt", Column timestamp [])]
    [("playlist",
      many_to_one "Photo" (Some "playlist") (Some true) None "Playlist")].

End Photo.

(** [class Video]: likewise, the declaration that extends [BaseMediaItem]
    and the one in [video.entity.ts] that extends [BaseUUIDEntity]. *)
Module Video.

Definition entity : Entity :=
  extends BaseMediaItem.entity "Video"
    [("duration", Column int []);
     ("resolution", Column varchar [Length 20]);
     ("codec", Column varchar [Length 50]);
     ("frameRate", Column decimal [Precision 5; Scale 2]);
     ("uploadedAt", Column timestamp [])]
    [("playlist",
      many_to_one "Video" (Some "playlist") (Some true) None "Playlist")].

Definition entity_flat : Entity :=
  extends BaseUUIDEntity.entity "Video"
    [("url", Column varchar [Length 255]);
     ("title", Column varchar [Length 255]);
     ("description", Column varchar [Length 255; Nullable true]);
     ("duration", Column int []);
     ("resolution", Column varchar [Length 20]);
     ("format", Column varchar [Length 50]);
     ("uploadedAt", Column timestamp [])]
    [("playlist",
      many_to_one "Video" (Some "playlist") (Some true) None "Playlist")].

End Video.

(** [class Playlist extends BaseUUIDEntity] *)
Module Playlist.

Definition entity : Entity :=
  extends BaseUUIDEntity.entity "Playlist"
    [("title", Column varchar [Length 255]);
     ("description", Column varchar [Length 255; Nullable true])]
    [("music", one_to_many "Music" (Some "playlist") (Some true) "Music[]");
     ("photos", one_to_many "Photo" (Some "playlist") (Some true) "Photo[]");
     ("videos", one_to_many "Video" (Some "playlist") (Some true) "Video[]");
     ("studio",
      many_to_one "Studio" (Some "playlist") (Some true) None "Studio")].

End Playlist.

(** The entity classes by name, for following a relation to its target. *)
Definition registry : list (string * Entity) :=
  [("Music", Music.entity); ("Photo", Photo.entity); ("Video", Video.entity);
   ("Playlist", Playlist.entity)].

(** Whether the class given to the decorator is the class the property is
    declared with. *)
Definition targets_declared (r : RelationOptions) : bool :=
  String.eqb (target r) (declared r).

(** Whether the inverse side named by a relation of [owner] leads back to
    [owner]: the property on the target class is a relation to [owner]. *)
Definition mutual (classes : list (string * Entity)) (owner : string)
    (r : RelationOptions) : bool :=
  match inverse r, assoc (target r) classes with
  | Some p, Some T =>
    match relation T p with
    | Some back => String.eqb (target back) owner
    | None => false
    end
  | _, _ => false
  end.

(** The attribute set of the Media Asset of the spec (section 3), to
    compare the classes with: what is asked of a column. *)
Inductive Requirement : Type :=
| Required
| Optional
| Defaults (c : Cell).

Definition meets (E : Entity) (k : string) (q : Requirement) : bool :=
  match column E k with
  | None => false
  | Some o =>
    match q, default o with
    | Required, None => negb (nullable o)
    | Optional, _ => nullable o
    | Defaults c, Some (Lit d) => cell_eqb c d
    | _, _ => false
    end
  end.

Definition MediaAsset : list (string * Requirement) :=
  [("url", Required); ("title", Required); ("description", Optional);
   ("status", Defaults (CStr "active"));
   ("archivedAt", Optional); ("deletedAt", Optional);
   ("version", Defaults (CInt 1)); ("availableFormats", Optional);
   ("fileSize", Required); ("format", Required); ("mimeType", Required);
   ("storagePath", Required); ("checksum", Optional);
   ("storageProvider", Required); ("hostingLocation", Required);
   ("viewCount", Defaults (CInt 0)); ("downloadCount", Defaults (CInt 0));
   ("lastAccessedAt", Optional);
   ("drmProtected", Defaults (CBool false)); ("drmType", Optional);
   ("licenseExpiryDate", Optional); ("regionRestrictions", Optional);
   ("downloadAllowed", Defaults (CBool false));
   ("streamingAllowed", Defaults (CBool true))].

Definition carries (E : Entity) (attributes : list (string * Requirement))
    : bool :=
  forallb (fun kq => meets E (fst kq) (snd kq)) attributes.

Definition cell_of_option (o : option string) : Cell :=
  match o with Some s => CStr s | None => NULL end.

Definition time_of_option (o : option Z) : Cell :=
  match o with Some t => CTime t | None => NULL end.

(** The row of an object from its properties: a property that was never
    assigned has no entry. *)
Definition props (fields : list (string * option Cell)) : Row :=
  flat_map (fun kv => match snd kv with
                      | Some c => [(fst kv, c)]
                      | None => []
                      end) fields.

Definition text_of_cell (c : Cell) : option string :=
  match c with CStr s => Some s | _ => None end.

(** [class MediaInteraction extends BaseUUIDEntity] *)
Module MediaInteraction.

Definition entity : Entity :=
  extends BaseUUIDEntity.entity "MediaInteraction"
    [("interactionType", Column varchar [Length 50]);
     ("timestamp", Column timestamp [])]
    [("user",
      many_to_one "User" (Some "mediaInteractions") None None "User");
     ("music", many_to_one "Music" None (Some true) None "Music");
     ("photo", many_to_one "Photo" None (Some true) None "Photo");
     ("video", many_to_one "Video" None (Some true) None "Video");
     ("playlist", many_to_one "Playlist" None (Some true) None "Playlist")].

(** An object of the class; a reference holds the key of its target. *)
Record t : Type := {
  uuid : string;
  interactionType : string;
  timestamp : Z;
  user : option string;
  music : option string;
  photo : option string;
  video : option string;
  playlist : option string
}.

Definition row (this : t) : Row :=
  [("uuid", CStr (uuid this));
   ("interactionType", CStr (interactionType this));
   ("timestamp", CTime (timestamp this));
   ("user", cell_of_option (user this));
   ("music", cell_of_option (music this));
   ("photo", cell_of_option (photo this));
   ("video", cell_of_option (video this));
   ("playlist", cell_of_option (playlist this))].

(** How many of the four targets the object references. *)
Definition targets (this : t) : nat :=
  List.length (filter (fun c => negb (is_null c))
                 [cell_of_option (music this); cell_of_option (photo this);
                  cell_of_option (video this);
                  cell_of_option (playlist this)]).

End MediaInteraction.

(** [class User extends BaseUUIDEntity] *)
Module User.

Definition entity : Entity :=
  extends BaseUUIDEntity.entity "User"
    [("accountType", Column varchar [Length 255; Nullable true]);
     ("channel", Column varchar [Length 255; Nullable true]);
     ("phoneNumber",
      Column varchar [Length 255; Nullable true; Unique true]);
     ("secondaryPhoneNumber", Column varchar [Length 255; Nullable true]);
     ("email", Column varchar [Length 255; Unique true]);
     ("secondaryEmail", Column varchar [Length 255; Nullable true]);
     ("validatedPhoneNumber", Column boolean [DefaultTo (Lit (CBool false))]);
     ("validatedEmail", Column boolean [DefaultTo (Lit (CBool false))]);
     ("pin", Column varchar [Length 128]);
     ("password_hash", Column varchar [Length 255]);
     ("dateOfBirth", Column date [Nullable true])]
    [("devices", one_to_many "Device" (Some "user") None "Device[]");
     ("studios", one_to_many "Studio" (Some "user") None "Studio[]");
     ("mediaInteractions",
      one_to_many "MediaInteraction" (Some "user") None "MediaInteraction[]");
     ("notifications",
      one_to_many "Notification" (Some "user") None "Notification[]")].

Record t : Type := {
  uuid : string;
  accountType : option string;
  channel : option string;
  phoneNumber : option string;
  secondaryPhoneNumber : option string;
  email : string;
  secondaryEmail : option string;
  validatedPhoneNumber : option bool;
  validatedEmail : option bool;
  pin : string;
  password_hash : string;
  dateOfBirth : option Z
}.

Definition bool_of_option (o : option bool) : Cell :=
  match o with Some b => CBool b | None => NULL end.

Definition row (this : t) : Row :=
  [("uuid", CStr (uuid this));
   ("accountType", cell_of_option (accountType this));
   ("channel", cell_of_option (channel this));
   ("phoneNumber", cell_of_option (phoneNumber this));
   ("secondaryPhoneNumber", cell_of_option (secondaryPhoneNumber this));
   ("email", CStr (email this));
   ("secondaryEmail", cell_of_option (secondaryEmail this));
   ("validatedPhoneNumber", bool_of_option (validatedPhoneNumber this));
   ("validatedEmail", bool_of_option (validatedEmail this));
   ("pin", CStr (pin this));
   ("password_hash", CStr (password_hash this));
   ("dateOfBirth", time_of_option (dateOfBirth this))].

(** [user.save()] for a new user: an insert into the table of users. *)
Definition create (now : Z) (this : t) (users : Table)
    : (JS.Error + unit) * Table :=
  insert entity now (row this) users.

End User.

(** [class Notification extends BaseUUIDEntity] *)
Module Notification.

Import Async Async.Notations.

Definition entity : Entity :=
  extends BaseUUIDEntity.entity "Notification"
    [("channel",
      Column enum [Enum ["email"; "SMS"; "WhatsApp"];
                   DefaultTo (Lit (CStr "WhatsApp"))]);
     ("message", Column bytea []);
     ("status",
      Column enum [Enum ["pending"; "sent"; "failed"];
                   DefaultTo (Lit (CStr "pending"))]);
     ("sendAt", Column timestamp []);
     ("deliveredAt", Column timestamp [Nullable true]);
     ("errorLog", Column text [Nullable true]);
     ("subject", Column varchar [Length 255; Nullable true])]
    [("studio",
      many_to_one "Studio" (Some "notifications") (Some true)
        (Some "SET NULL") "Studio");
     ("user",
      many_to_one "User" (Some "notifications") (Some true)
        (Some "SET NULL") "User")].

(** An object of the class.  A property is [None] until it is assigned;
    [message] holds whatever the caller assigned.  The two dates of
    [BaseUUIDEntity] are left to the store. *)
Record t : Type := {
  uuid : string;
  studio : option string;
  user : option string;
  channel : option string;
  message : JS.Value;
  status : option string;
  sendAt : option Z;
  deliveredAt : option Z;
  errorLog : option string;
  subject : option string
}.

(** [this.message = v] *)
Definition set_message (v : JS.Value) (this : t) : t :=
  {| uuid := uuid this; studio := studio this; user := user this;
     channel := channel this; message := v; status := status this;
     sendAt := sendAt this; deliveredAt := deliveredAt this;
     errorLog := errorLog this; subject := subject this |}.

(** [this.status = s] *)
Definition set_status (s : string) (this : t) : t :=
  {| uuid := uuid this; studio := studio this; user := user this;
     channel := channel this; message := message this; status := Some s;
     sendAt := sendAt this; deliveredAt := deliveredAt this;
     errorLog := errorLog this; subject := subject this |}.

(** [this.deliveredAt = d] *)
Definition set_deliveredAt (d : option Z) (this : t) : t :=
  {| uuid := uuid this; studio := studio this; user := user this;
     channel := channel this; message := message this;
     status := status this; sendAt := sendAt this; deliveredAt := d;
     errorLog := errorLog this; subject := subject this |}.

(** [this.errorLog = e] *)
Definition set_errorLog (e : option string) (this : t) : t :=
  {| uuid := uuid this; studio := studio this; user := user this;
     channel := channel this; message := message this;
     status := status this; sendAt := sendAt this;
     deliveredAt := deliveredAt this; errorLog := e;
     subject := subject this |}.

(** The text parameter that the driver sends for a string. *)
Definition text_of (s : list N) : string :=
  string_of_list_byte (Utf8.encode s).

(** The parameter the driver sends for [message]: the bytes of a buffer
    as they are, a string as text, [null] as [NULL], and nothing for
    [undefined]. *)
Definition cell_of_message (v : JS.Value) : option Cell :=
  match v with
  | JS.Buf b => Some (CBytes b)
  | JS.Str s => Some (CStr (text_of s))
  | JS.null => Some NULL
  | JS.undefined => None
  end.

Definition fields (this : t) : list (string * option Cell) :=
  [("uuid", Some (CStr (uuid this)));
   ("channel", option_map CStr (channel this));
   ("message", cell_of_message (message this));
   ("status", option_map CStr (status this));
   ("sendAt", option_map CTime (sendAt this));
   ("deliveredAt", option_map CTime (deliveredAt this));
   ("errorLog", option_map CStr (errorLog this));
   ("subject", option_map CStr (subject this));
   ("studio", option_map CStr (studio this));
   ("user", option_map CStr (user this))].

Definition row (this : t) : Row := props (fields this).

(** What the two [catch] blocks write to the console. *)
Definition compression_error (e : JS.Error) : LogEntry :=
  {| label := "Compression error:"; error := e |}.

Definition decompression_error (e : JS.Error) : LogEntry :=
  {| label := "Decompression error:"; error := e |}.

(** The constraints of the columns, read off the object: the two enums
    and the length of [subject]; a message that the [bytea] column
    takes; [sendAt], which an insert requires. *)
Definition member (values : list string) (o : option string) : bool :=
  match o with
  | Some s => existsb (String.eqb s) values
  | None => true
  end.

Definition fits (n : N) (o : option string) : bool :=
  match o with
  | Some s => N.of_nat (chars s) <=? n
  | None => true
  end.

Definition valid (this : t) : bool :=
  member ["email"; "SMS"; "WhatsApp"] (channel this)
  && member ["pending"; "sent"; "failed"] (status this)
  && fits 255 (subject this).

Definition storable (v : JS.Value) : bool :=
  match v with
  | JS.Buf _ => true
  | JS.Str s =>
    match bytea_in (list_byte_of_string (text_of s)) with
    | Some _ => true
    | None => false
    end
  | JS.undefined | JS.null => false
  end.

Definition assigned {A} (o : option A) : bool :=
  match o with Some _ => true | None => false end.

(** What an insert asks of the object. *)
Definition acceptable (this : t) : bool :=
  valid this && storable (message this) && assigned (sendAt this).

(** What an update asks of the object: a property that was never
    assigned is not written, so nothing is asked of it. *)
Definition assignable (this : t) : bool :=
  valid this
  && match message this with
     | JS.undefined => true
     | v => storable v
     end.

(** The object after an insert: the columns that have a default are read
    back from the written row [r]. *)
Definition returned (r : Row) (this : t) : t :=
  {| uuid := uuid this; studio := studio this; user := user this;
     channel := text_of_cell (get r "channel"); message := message this;
     status := text_of_cell (get r "status"); sendAt := sendAt this;
     deliveredAt := deliveredAt this; errorLog := errorLog this;
     subject := subject this |}.

(** Whether [save] has anything to write: the object is new, or one of
    its assigned properties differs from its stored row. *)
Definition pending (this : t) (table : Table) : bool :=
  match find (same_key (row this)) table with
  | None => true
  | Some old =>
    match changes (row this) old with
    | [] => false
    | _ :: _ => true
    end
  end.

(** The write of the object as it is: an insert when its key is not in
    the table, an update of its stored row otherwise. *)
Definition written_as_is (now : Z) (this : t) (table : Table)
    : JS.Error + t * Table :=
  match find (same_key (row this)) table with
  | None =>
    match insert entity now (row this) table with
    | (inr _, table') =>
      inr (returned (write entity now (row this)) this, table')
    | (inl e, _) => inl e
    end
  | Some _ =>
    match update entity now (row this) table with
    | (inr _, table') => inr (this, table')
    | (inl e, _) => inl e
    end
  end.

(** The [message] cell of the stored row with the key of [this]. *)
Definition stored_message (this : t) (table : Table) : option Cell :=
  option_map (fun r => get r "message")
    (find (same_key (row this)) table).

Section Methods.

Context {zlib : Zlib.Codec}.

(** [promisify(deflate)] applied to a string: zlib compresses the
    UTF-8 bytes of the string. *)
Definition deflateAsync (s : list N) : M (list byte) :=
  await (Zlib.deflate (Utf8.encode s)).

(** [promisify(unzip)] *)
Definition unzipAsync (b : list byte) : M (list byte) :=
  await (Zlib.unzip b).

(** [@BeforeInsert() @BeforeUpdate() async compressMessage()] *)
Definition compressMessage (this : t) : M t :=
  if JS.truthy (message this) then
    try_catch
      (text <- await (JS.toString (message this)) ;;
       compressed <- deflateAsync text ;;
       ret (set_message (JS.Buf compressed) this))
      (fun error =>
         console_error "Compression error:" error ;;;
         ret this)
  else ret this.

(** [async getMessage(): Promise<string>] *)
Definition getMessage (this : t) : M (list N) :=
  buffer <- await (JS.Buffer_from (message this)) ;;
  try_catch
    (decompressedBuffer <- unzipAsync buffer ;;
     ret (Utf8.decode decompressedBuffer))
    (fun error =>
       console_error "Decompression error:" error ;;;
       ret []).

(** [this.save()].  TypeORM loads the stored row with the key of the
    object.  When there is none the [@BeforeInsert] hook runs and the
    object is inserted; when an assigned property differs from the
    stored row the [@BeforeUpdate] hook runs and the row is updated with
    what differs then; and when nothing differs, no hook runs and nothing
    is written.  The hook assigns to the caller's object. *)
Definition save (now : Z) (this : t) (table : Table) : M (t * Table) :=
  if pending this table then
    this' <- compressMessage this ;;
    await (written_as_is now this' table)
  else ret (this, table).

End Methods.

End Notification.

(** ** Sample objects *)

Module Samples.

(** A notification for user [u-1] whose [message] is [body]. *)
Definition notification (body : JS.Value) : Notification.t := {|
  Notification.uuid := "n-1";
  Notification.studio := None;
  Notification.user := Some "u-1";
  Notification.channel := Some "email";
  Notification.message := body;
  Notification.status := None;
  Notification.sendAt := Some 1700000000%Z;
  Notification.deliveredAt := None;
  Notification.errorLog := None;
  Notification.subject := None
|}.

Definition Hello : list byte := Utf8.encode (Utf8.of_string "Hello").

(** [Buffer.from("Hello")] as the message. *)
Definition hello : Notification.t := notification (JS.Buf Hello).

(** A message that is not UTF-8: the single byte [0xFF]. *)
Definition binary : Notification.t := notification (JS.Buf [xff]).

(** The empty string as the message. *)
Definition blank : Notification.t := notification (JS.Str []).

Definition greeting : Notification.t :=
  notification (JS.Buf (Utf8.encode (Utf8.of_string "Hello, world!"))).

(** A notification that was delivered. *)
Definition delivered : Notification.t :=
  Notification.set_deliveredAt (Some 1700000050%Z)
    (Notification.set_status "sent" hello).

(** The table of notifications once [delivered] is stored. *)
Definition outbox : Table :=
  [write Notification.entity 1700000060 (Notification.row delivered)].

(** An interaction that references a music track and a photo at once. *)
Definition both : MediaInteraction.t := {|
  MediaInteraction.uuid := "i-1";
  MediaInteraction.interactionType := "WATCHED";
  MediaInteraction.timestamp := 1700000000;
  MediaInteraction.user := Some "u-1";
  MediaInteraction.music := Some "m-1";
  MediaInteraction.photo := Some "p-1";
  MediaInteraction.video := None;
  MediaInteraction.playlist := None
|}.

Definition user (id email : string) (phone : option string) : User.t := {|
  User.uuid := id;
  User.accountType := Some "WATCHER";
  User.channel := Some "WEB";
  User.phoneNumber := phone;
  User.secondaryPhoneNumber := None;
  User.email := email;
  User.secondaryEmail := None;
  User.validatedPhoneNumber := None;
  User.validatedEmail := None;
  User.pin := "0000";
  User.password_hash := "$2b$10$hash";
  User.dateOfBirth := None
|}.

(** Two sign-ups with the same email address. *)
Definition ann : User.t := user "u-1" "a@x.com" None.

Definition ann_again : User.t := user "u-2" "a@x.com" (Some "+15550100").


(** A photo that leaves every column with a default unset. *)
Definition plain_photo : Row :=
  [("uuid", CStr "p-2"); ("url", CStr "https://cdn/p-2.jpg");
   ("title", CStr "Dawn"); ("fileSize", CInt 2048); ("format", CStr "PNG");
   ("mimeType", CStr "image/png"); ("storagePath", CStr "/p/2");
   ("storageProvider", CStr "S3"); ("hostingLocation", CStr "US-West");
   ("height", CInt 600); ("width", CInt 800);
   ("capturedAt", CTime 1700000000)].

End Samples.


(** ** The remaining classes *)

(** [class Device extends BaseUUIDEntity]; the foreign key of [user] is
    the column [user_uuid] ([@JoinColumn]). *)
Module Device.

Definition entity : Entity :=
  extends BaseUUIDEntity.entity "Device"
    [("name", Column varchar [Length 255; Nullable true]);
     ("fcmToken", Column varchar [Length 255; Nullable true]);
     ("active", Column boolean [DefaultTo (Lit (CBool false))]);
     ("lastLoggedInTime", Column timestamp [DefaultTo CURRENT_TIMESTAMP]);
     ("lastLoggedOutTime", Column timestamp [Nullable true])]
    [("user", many_to_one "User" (Some "devices") (Some true) None "User")].

Record t : Type := {
  uuid : string;
  name : option string;
  fcmToken : option string;
  user : option string;
  active : option bool;
  lastLoggedInTime : option Z;
  lastLoggedOutTime : option Z
}.

Definition row (this : t) : Row :=
  [("uuid", CStr (uuid this));
   ("name", cell_of_option (name this));
   ("fcmToken", cell_of_option (fcmToken this));
   ("active", User.bool_of_option (active this));
   ("lastLoggedInTime", time_of_option (lastLoggedInTime this));
   ("lastLoggedOutTime", time_of_option (lastLoggedOutTime this));
   ("user", cell_of_option (user this))].

(** The two length bounds of the class. *)
Definition within (this : t) : bool :=
  Notification.fits 255 (name this) && Notification.fits 255 (fcmToken this).

End Device.

(** [class Studio extends BaseUUIDEntity] *)
Module Studio.

Definition entity : Entity :=
  extends BaseUUIDEntity.entity "Studio"
    [("status", Column varchar [Length 255; DefaultTo (Lit (CStr "IN-REVIEW"))]);
     ("name", Column varchar [Length 255]);
     ("description", Column varchar [Length 255]);
     ("picture_url", Column varchar [Length 255; Nullable true])]
    [("user", many_to_one "User" (Some "studios") (Some true) None "User");
     ("playlist", one_to_many "Playlist" (Some "studio") None "Playlist[]");
     ("notifications",
      one_to_many "Notification" (Some "studio") None "Notification[]")].

Record t : Type := {
  uuid : string;
  status : option string;
  user : option string;
  name : string;
  description : string;
  picture_url : option string
}.

Definition row (this : t) : Row :=
  [("uuid", CStr (uuid this));
   ("status", cell_of_option (status this));
   ("name", CStr (name this));
   ("description", CStr (description this));
   ("picture_url", cell_of_option (picture_url this));
   ("user", cell_of_option (user this))].

(** The four length bounds of the class. *)
Definition within (this : t) : bool :=
  Notification.fits 255 (status this)
  && Notification.fits 255 (Some (name this))
  && Notification.fits 255 (Some (description this))
  && Notification.fits 255 (picture_url this).

End Studio.



(** A sequence of sign-ups, each at its own time: every [create] runs on
    the table the one before it left. *)
Fixpoint creates (us : list (Z * User.t)) (users : Table) : Table :=
  match us with
  | [] => users
  | (now, u) :: us' => creates us' (snd (User.create now u users))
  end.

(** *** Deleting the target of a relation *)

Definition references (k : string) (key : Cell) (r : Row) : bool :=
  cell_eqb (get r k) key.

Definition set_cell (k : string) (c : Cell) (r : Row) : Row :=
  map (fun kc => if String.eqb (fst kc) k then (fst kc, c) else kc) r.

(** What the database does to the table that holds the foreign key [k] of
    relation [o] when the row with key [key] of the target is deleted:
    with [onDelete: "SET NULL"] the references are nulled, with
    ["CASCADE"] the referencing rows go, and without an action the
    deletion is refused ([None]) while a row still references the target. *)
Definition on_delete (o : RelationOptions) (k : string) (key : Cell)
    (children : Table) : option Table :=
  match onDelete o with
  | Some action =>
    if String.eqb action "SET NULL" then
      Some (map (fun r => if references k key r then set_cell k NULL r
                          else r) children)
    else if String.eqb action "CASCADE" then
      Some (filter (fun r => negb (references k key r)) children)
    else if existsb (references k key) children then None
    else Some children
  | None =>
    if existsb (references k key) children then None else Some children
  end.

(** The deletion of the user or studio [key], seen from the table of
    notifications: [k] is ["user"] or ["studio"]. *)
Definition Notification_on_delete (k : string) (key : Cell)
    (notifications : Table) : option Table :=
  match relation Notification.entity k with
  | Some o => on_delete o k key notifications
  | None => Some notifications
  end.

(** More sample objects. *)
Module MoreSamples.

(** "Hello" assigned as a string. *)
Definition hello_string : Notification.t :=
  Samples.notification (JS.Str (Utf8.of_string "Hello")).

(** A notification whose message was never assigned. *)
Definition unset : Notification.t := Samples.notification JS.undefined.

(** A notification with neither channel nor status assigned. *)
Definition bare : Notification.t := {|
  Notification.uuid := "n-2";
  Notification.studio := Some "s-1";
  Notification.user := Some "u-1";
  Notification.channel := None;
  Notification.message := JS.Buf Samples.Hello;
  Notification.status := None;
  Notification.sendAt := Some 1700000000%Z;
  Notification.deliveredAt := None;
  Notification.errorLog := None;
  Notification.subject := Some "Welcome"
|}.

(** A device that is registered with nothing but its key. *)
Definition phone : Device.t := {|
  Device.uuid := "d-1";
  Device.name := None;
  Device.fcmToken := None;
  Device.user := None;
  Device.active := None;
  Device.lastLoggedInTime := None;
  Device.lastLoggedOutTime := None
|}.

Definition studio : Studio.t := {|
  Studio.uuid := "s-1";
  Studio.status := None;
  Studio.user := Some "u-1";
  Studio.name := "Blue Room";
  Studio.description := "Recording studio";
  Studio.picture_url := None
|}.

(** Three sign-ups in a row; the second repeats the address of the first. *)
Definition signups : list (Z * User.t) :=
  [(1700000001%Z, Samples.ann); (1700000002%Z, Samples.ann_again);
   (1700000003%Z, Samples.user "u-3" "b@x.com" (Some "+15550100"))].

(** Two stored notifications: one for user [u-1], one for user [u-2]. *)
Definition inbox : Table :=
  [write Notification.entity 1700000060 (Notification.row Samples.delivered);
   [("uuid", CStr "n-7"); ("message", CBytes []); ("user", CStr "u-2");
    ("studio", CStr "s-1")]].

End MoreSamples.
(** * Facts *)

(** ** UTF-8: encoding then decoding a well-formed string *)

Module Utf8Facts.

Import Utf8.

Lemma to_N_byte_of_N_mod (n : N) : Byte.to_N (byte_of_N n) = n mod 256.
Proof.
  unfold byte_of_N.
  destruct (Byte.of_N (n mod 256)) as [b|] eqn:E.
  - now apply Byte.to_of_N.
  - apply Byte.of_N_None_iff in E.
    pose proof (N.mod_lt n 256 ltac:(discriminate)). lia.
Qed.

Lemma to_N_byte_of_N (n : N) : n < 256 -> Byte.to_N (byte_of_N n) = n.
Proof.
  intros H. rewrite to_N_byte_of_N_mod. now apply N.mod_small.
Qed.

Lemma to_N_lt (b : byte) : Byte.to_N b < 256.
Proof. pose proof (Byte.to_N_bounded b). lia. Qed.

Ltac euclid := zify; Z.to_euclidean_division_equations; lia.

Ltac to_N_bytes :=
  repeat match goal with
  | |- context [Byte.to_N (byte_of_N ?x)] =>
      rewrite (to_N_byte_of_N x) by lia
  end.

Ltac split_eqs :=
  repeat match goal with
  | |- context [if ?a =? ?b then _ else _] =>
      let E := fresh "E" in
      destruct (a =? b) eqn:E;
      [apply N.eqb_eq in E | apply N.eqb_neq in E]; cbv iota
  end.

Ltac decide_tests :=
  repeat match goal with
  | |- context [?a <? ?b] =>
      first [ replace (a <? b) with true by (symmetry; apply N.ltb_lt; lia)
            | replace (a <? b) with false by (symmetry; apply N.ltb_ge; lia) ]
  | |- context [?a <=? ?b] =>
      first [ replace (a <=? b) with true by (symmetry; apply N.leb_le; lia)
            | replace (a <=? b) with false by (symmetry; apply N.leb_gt; lia) ]
  end.

(** The base-64 digits of a code point: [c = 64 * (c / 64) + c mod 64]. *)
Ltac digit c q r :=
  pose proof (N.div_mod c 64 ltac:(discriminate));
  pose proof (N.mod_lt c 64 ltac:(discriminate));
  remember (c mod 64) as r; remember (c / 64) as q.

Lemma payload_continuation (r : N) : r < 64 -> (0x80 + r) mod 64 = r.
Proof. intros H. euclid. Qed.

Lemma decode_cons (b0 : byte) (r : list byte) :
  decode (b0 :: r) = decode_step decode b0 r.
Proof. reflexivity. Qed.

Ltac finish_decode :=
  cbn [app]; rewrite decode_cons; unfold decode_step;
  unfold in_range, continuation, in_range, payload, second_lo, second_hi;
  to_N_bytes; split_eqs; decide_tests; cbn [andb];
  rewrite ?payload_continuation by lia; f_equal; lia.

Lemma is_scalar_iff (c : N) :
  is_scalar c = true <-> c < 0xD800 \/ (0xE000 <= c /\ c <= 0x10FFFF).
Proof.
  unfold is_scalar.
  rewrite orb_true_iff, andb_true_iff, N.ltb_lt, !N.leb_le. reflexivity.
Qed.

Lemma decode_encode_scalar (c : N) (rest : list byte) :
  is_scalar c = true ->
  decode (encode_scalar c ++ rest) = c :: decode rest.
Proof.
  intros Hs. apply is_scalar_iff in Hs. unfold encode_scalar.
  replace (c / 262144) with (c / 64 / 64 / 64)
    by (now rewrite !N.Div0.div_div).
  replace (c / 4096) with (c / 64 / 64) by (now rewrite !N.Div0.div_div).
  destruct (c <? 0x80) eqn:E1; [apply N.ltb_lt in E1 | apply N.ltb_ge in E1].
  { finish_decode. }
  digit c q1 r0.
  destruct (c <? 0x800) eqn:E2; [apply N.ltb_lt in E2 | apply N.ltb_ge in E2].
  { finish_decode. }
  digit q1 q2 r1.
  destruct (c <? 0x10000) eqn:E3; [apply N.ltb_lt in E3 | apply N.ltb_ge in E3].
  { finish_decode. }
  digit q2 q3 r2.
  finish_decode.
Qed.

Lemma decode_encode (s : list N) :
  well_formed s -> decode (encode s) = s.
Proof.
  induction 1 as [|c s Hc Hs IH]; [reflexivity|].
  cbn [encode flat_map]. unfold encode_codepoint. rewrite Hc.
  rewrite decode_encode_scalar by exact Hc. f_equal. exact IH.
Qed.

(** The decoder never produces a surrogate or a value past U+10FFFF. *)

Lemma in_range_true (lo hi : N) (b : byte) :
  in_range lo hi b = true -> lo <= Byte.to_N b /\ Byte.to_N b <= hi.
Proof.
  unfold in_range. rewrite andb_true_iff, !N.leb_le. trivial.
Qed.

Lemma second_bounds (n0 : N) (b : byte) :
  in_range (second_lo n0) (second_hi n0) b = true ->
  0x80 <= Byte.to_N b <= 0xBF
  /\ (n0 = 0xE0 -> 0xA0 <= Byte.to_N b)
  /\ (n0 = 0xED -> Byte.to_N b <= 0x9F)
  /\ (n0 = 0xF0 -> 0x90 <= Byte.to_N b)
  /\ (n0 = 0xF4 -> Byte.to_N b <= 0x8F).
Proof.
  intros H. apply in_range_true in H. revert H.
  unfold second_lo, second_hi.
  repeat match goal with
  | |- context [?a =? ?b] =>
      let E := fresh "E" in
      destruct (a =? b) eqn:E;
      [apply N.eqb_eq in E | apply N.eqb_neq in E]
  end; cbv iota; lia.
Qed.

Lemma well_formed_replacement (s : list N) :
  well_formed s -> well_formed (REPLACEMENT :: s).
Proof. intros H. constructor; [reflexivity | exact H]. Qed.

Lemma well_formed_cons (c : N) (s : list N) :
  c < 0xD800 \/ (0xE000 <= c /\ c <= 0x10FFFF) ->
  well_formed s -> well_formed (c :: s).
Proof. intros Hc H. constructor; [now apply is_scalar_iff | exact H]. Qed.

Lemma decode_well_formed_upto (n : nat) :
  forall bs, (List.length bs <= n)%nat -> well_formed (decode bs).
Proof.
  induction n as [|n IH]; intros bs Hlen.
  { destruct bs; [constructor | cbn in Hlen; lia]. }
  destruct bs as [|b0 r]; [constructor|].
  cbn [List.length] in Hlen.
  assert (Hr : well_formed (decode r)) by (apply IH; lia).
  rewrite decode_cons. unfold decode_step, continuation.
  destruct (Byte.to_N b0 <? 0x80) eqn:T0.
  { apply N.ltb_lt in T0. apply well_formed_cons; [lia | exact Hr]. }
  apply N.ltb_ge in T0.
  destruct (in_range 0xC2 0xDF b0) eqn:T2.
  { apply in_range_true in T2.
    destruct r as [|b1 r1]; [now apply well_formed_replacement; constructor|].
    destruct (in_range 0x80 0xBF b1) eqn:C1;
      [|now apply well_formed_replacement].
    apply in_range_true in C1. cbn [List.length] in Hlen.
    apply well_formed_cons; [unfold payload; euclid | apply IH; lia]. }
  destruct (in_range 0xE0 0xEF b0) eqn:T3.
  { apply in_range_true in T3.
    destruct r as [|b1 r1]; [now apply well_formed_replacement; constructor|].
    destruct (in_range _ _ b1) eqn:C1; [|now apply well_formed_replacement].
    apply second_bounds in C1. cbn [List.length] in Hlen.
    destruct r1 as [|b2 r2];
      [now apply well_formed_replacement; constructor|].
    cbn [List.length] in Hlen.
    destruct (in_range 0x80 0xBF b2) eqn:C2;
      [|apply well_formed_replacement; apply IH; cbn [List.length]; lia].
    apply in_range_true in C2.
    apply well_formed_cons; [unfold payload; euclid | apply IH; lia]. }
  destruct (in_range 0xF0 0xF4 b0) eqn:T4;
    [|now apply well_formed_replacement].
  apply in_range_true in T4.
  destruct r as [|b1 r1]; [now apply well_formed_replacement; constructor|].
  destruct (in_range _ _ b1) eqn:C1; [|now apply well_formed_replacement].
  apply second_bounds in C1. cbn [List.length] in Hlen.
  destruct r1 as [|b2 r2]; [now apply well_formed_replacement; constructor|].
  cbn [List.length] in Hlen.
  destruct (in_range 0x80 0xBF b2) eqn:C2;
    [|apply well_formed_replacement; apply IH; cbn [List.length]; lia].
  apply in_range_true in C2.
  destruct r2 as [|b3 r3]; [now apply well_formed_replacement; constructor|].
  cbn [List.length] in Hlen.
  destruct (in_range 0x80 0xBF b3) eqn:C3;
    [|apply well_formed_replacement; apply IH; cbn [List.length]; lia].
  apply in_range_true in C3.
  apply well_formed_cons; [unfold payload; euclid | apply IH; lia].
Qed.

Lemma decode_well_formed (bs : list byte) : well_formed (decode bs).
Proof. now apply (decode_well_formed_upto (List.length bs)). Qed.

(** Decoding is idempotent through the encoder: what [toString] made of
    a buffer survives a further trip through UTF-8 unchanged. *)
Lemma decode_encode_decode (bs : list byte) :
  decode (encode (decode bs)) = decode bs.
Proof. apply decode_encode, decode_well_formed. Qed.

End Utf8Facts.

(** ** The stored-block codec honours the contract of the library *)

Module ZlibFacts.

Import Zlib Utf8Facts.

Lemma le16_value (n : N) :
  n <= BLOCK ->
  Byte.to_N (Utf8.byte_of_N n)
    + 256 * Byte.to_N (Utf8.byte_of_N (n / 256)) = n.
Proof.
  unfold BLOCK. intros H. rewrite !to_N_byte_of_N_mod. euclid.
Qed.

Lemma firstn_size_app (chunk rest : list byte) :
  firstn (N.to_nat (size chunk)) (chunk ++ rest) = chunk.
Proof.
  unfold size. rewrite Nat2N.id, firstn_app, Nat.sub_diag, firstn_all.
  cbn [firstn]. apply app_nil_r.
Qed.

Lemma skipn_size_app (chunk rest : list byte) :
  skipn (N.to_nat (size chunk)) (chunk ++ rest) = rest.
Proof.
  unfold size. rewrite Nat2N.id, skipn_app, Nat.sub_diag, skipn_all.
  reflexivity.
Qed.

Lemma size_app (x y : list byte) : size (x ++ y) = size x + size y.
Proof. unfold size. rewrite length_app. lia. Qed.

(** Reading back one stored block. *)
Lemma inflate_stored_block (final : bool) (f : nat)
    (chunk rest : list byte) :
  size chunk <= BLOCK ->
  inflate_blocks (S f) (stored_block final chunk ++ rest) =
  if final then inr (chunk, rest)
  else match inflate_blocks f rest with
       | inr (data, rest') => inr (chunk ++ data, rest')
       | inl e => inl e
       end.
Proof.
  intros H. unfold stored_block, le16.
  cbn [app inflate_blocks].
  rewrite (le16_value (size chunk)) by exact H.
  rewrite (le16_value (BLOCK - size chunk)) by lia.
  replace (size chunk + (BLOCK - size chunk) =? BLOCK) with true
    by (symmetry; apply N.eqb_eq; lia).
  replace (size chunk <=? size (chunk ++ rest)) with true
    by (symmetry; apply N.leb_le; rewrite size_app; lia).
  rewrite firstn_size_app, skipn_size_app.
  destruct final; reflexivity.
Qed.

Lemma size_firstn_block (data : list byte) :
  BLOCK < size data -> size (firstn (N.to_nat BLOCK) data) = BLOCK.
Proof.
  unfold size. intros H. rewrite length_firstn. lia.
Qed.

Lemma inflate_stored_blocks (fuel : nat) :
  forall (data rest : list byte) (fuel' : nat),
    (List.length data <= fuel)%nat -> (fuel < fuel')%nat ->
    inflate_blocks fuel' (stored_blocks fuel data ++ rest)
    = inr (data, rest).
Proof.
  induction fuel as [|f IH]; intros data rest fuel' Hd Hf;
    (destruct fuel' as [|f']; [lia|]).
  - cbn [stored_blocks]. rewrite inflate_stored_block; [reflexivity|].
    destruct data; [cbn; lia | cbn in Hd; lia].
  - cbn [stored_blocks].
    destruct (BLOCK <? size data) eqn:E;
      [apply N.ltb_lt in E | apply N.ltb_ge in E].
    + rewrite <- app_assoc.
      rewrite inflate_stored_block
        by (rewrite size_firstn_block by exact E; lia).
      rewrite IH.
      * now rewrite firstn_skipn.
      * rewrite length_skipn. unfold size, BLOCK in *. lia.
      * lia.
    + now rewrite inflate_stored_block.
Qed.

Lemma length_stored_blocks (fuel : nat) :
  forall data : list byte,
    (List.length data < List.length (stored_blocks fuel data))%nat.
Proof.
  assert (B : forall final (d : list byte),
             List.length (stored_block final d) = (5 + List.length d)%nat).
  { intros final d. unfold stored_block, le16. cbn [List.length app].
    reflexivity. }
  induction fuel as [|f IH]; intros data; cbn [stored_blocks].
  - rewrite B. lia.
  - destruct (BLOCK <? size data).
    + rewrite length_app, B.
      specialize (IH (skipn (N.to_nat BLOCK) data)).
      rewrite <- (firstn_skipn (N.to_nat BLOCK) data) at 1.
      rewrite length_app. lia.
    + rewrite B. lia.
Qed.

Lemma bytes_eqb_refl (x : list byte) : bytes_eqb x x = true.
Proof.
  induction x as [|b x IH]; [reflexivity|].
  cbn [bytes_eqb]. rewrite IH, andb_true_r. now apply Byte.byte_dec_lb.
Qed.

Lemma bytes_eqb_eq (x y : list byte) : bytes_eqb x y = true <-> x = y.
Proof.
  split; [|intros ->; apply bytes_eqb_refl].
  revert y. induction x as [|a x IH]; intros [|b y]; cbn [bytes_eqb];
    try discriminate; [reflexivity|].
  intros H. apply andb_true_iff in H. destruct H as [H1 H2].
  apply Byte.byte_dec_bl in H1. f_equal; [exact H1 | now apply IH].
Qed.

Lemma unzip_stream (data : list byte) : unzip_stored (stream data) = inr data.
Proof.
  unfold stream, unzip_stored. cbn [app].
  replace (header_ok x78 x01) with true by reflexivity.
  rewrite inflate_stored_blocks.
  - replace (firstn 4 (be32 (adler32 data))) with (be32 (adler32 data))
      by reflexivity.
    now rewrite bytes_eqb_refl.
  - lia.
  - rewrite length_app. pose proof (length_stored_blocks (List.length data) data).
    lia.
Qed.

Lemma stored_lawful (maxOutputLength : N) : Lawful (stored maxOutputLength).
Proof.
  intros m c. cbn [deflate unzip stored]. unfold deflate_stored.
  destruct (size (stream m) <=? maxOutputLength); [|discriminate].
  intros H. injection H as <-. apply unzip_stream.
Qed.

End ZlibFacts.

(** ** The store *)

Module StoreFacts.

Lemma strings_eqb_eq (x y : list string) : strings_eqb x y = true <-> x = y.
Proof.
  revert y. induction x as [|a x IH]; intros [|b y]; cbn [strings_eqb];
    try (split; [discriminate | discriminate]); [tauto|].
  rewrite andb_true_iff, String.eqb_eq, IH.
  split; [intros [-> ->]; reflexivity | intros H; injection H; auto].
Qed.

Lemma cell_eqb_eq (x y : Cell) : cell_eqb x y = true <-> x = y.
Proof.
  destruct x, y; cbn [cell_eqb];
    try (split; [discriminate | discriminate]); try tauto.
  - rewrite String.eqb_eq. split; [now intros -> | now intros [= ->]].
  - rewrite Z.eqb_eq. split; [now intros -> | now intros [= ->]].
  - rewrite Bool.eqb_true_iff. split; [now intros -> | now intros [= ->]].
  - rewrite ZlibFacts.bytes_eqb_eq.
    split; [now intros -> | now intros [= ->]].
  - rewrite Z.eqb_eq. split; [now intros -> | now intros [= ->]].
  - rewrite strings_eqb_eq. split; [now intros -> | now intros [= ->]].
Qed.

Lemma cell_eqb_refl (x : Cell) : cell_eqb x x = true.
Proof. now apply cell_eqb_eq. Qed.

Lemma cell_eqb_sym (x y : Cell) : cell_eqb x y = cell_eqb y x.
Proof.
  apply Bool.eq_iff_eq_true. rewrite !cell_eqb_eq. split; congruence.
Qed.

Lemma taken_app (k : string) (r : Row) (t t' : Table) :
  taken k r (t ++ t') = taken k r t || taken k r t'.
Proof.
  unfold taken. rewrite existsb_app.
  destruct (is_null (get r k)); cbn [negb andb]; reflexivity.
Qed.

Lemma taken_one (k : string) (r r' : Row) :
  taken k r [r']
  = negb (is_null (get r k)) && cell_eqb (get r' k) (get r k).
Proof. unfold taken. cbn [existsb]. now rewrite orb_false_r. Qed.

(** Two rows that share a value share it both ways round. *)
Lemma taken_one_sym (k : string) (r r' : Row) :
  taken k r [r'] = taken k r' [r].
Proof.
  rewrite !taken_one, (cell_eqb_sym (get r k)).
  destruct (cell_eqb (get r' k) (get r k)) eqn:E;
    [|now rewrite !andb_false_r].
  apply cell_eqb_eq in E. now rewrite E.
Qed.

Lemma distinct_on_snoc (k : string) (r : Row) (t : Table) :
  distinct_on k (t ++ [r]) = distinct_on k t && negb (taken k r t).
Proof.
  induction t as [|a t IH];
    [cbn [app distinct_on]; unfold taken; cbn [existsb];
     now rewrite !andb_false_r|].
  cbn [app distinct_on]. rewrite IH, taken_app.
  change (a :: t) with ([a] ++ t). rewrite (taken_app k r [a] t).
  rewrite (taken_one_sym k a r).
  destruct (taken k a t), (taken k r [a]), (taken k r t),
    (distinct_on k t); reflexivity.
Qed.

Lemma conflict_none (ks : list string) (r : Row) (t : Table) (k : string) :
  conflict ks r t = None -> In k ks -> taken k r t = false.
Proof.
  unfold conflict. intros H Hk.
  exact (find_none (fun k => taken k r t) ks H k Hk).
Qed.

Lemma conflict_some (ks : list string) (r : Row) (t : Table) (k : string) :
  In k ks -> taken k r t = true -> exists k', conflict ks r t = Some k'.
Proof.
  intros Hk Ht. destruct (conflict ks r t) as [k'|] eqn:E; [now exists k'|].
  rewrite (conflict_none ks r t k E Hk) in Ht. discriminate.
Qed.

(** A rejected insert leaves the table as it was. *)
Lemma insert_rejected (E : Entity) (now : Z) (r : Row) (t : Table)
    (e : JS.Error) :
  fst (insert E now r t) = inl e -> snd (insert E now r t) = t.
Proof.
  unfold insert. destruct (check E r); [reflexivity|].
  destruct (conflict _ _ _); [reflexivity | discriminate].
Qed.

Lemma insert_accepted (E : Entity) (now : Z) (r : Row) (t : Table) :
  check E r = None ->
  conflict (unique_columns E) (write E now r) t = None ->
  insert E now r t = (inr tt, t ++ [write E now r]).
Proof. intros H1 H2. unfold insert. now rewrite H1, H2. Qed.

Lemma insert_inversion (E : Entity) (now : Z) (r : Row) (t t' : Table) :
  insert E now r t = (inr tt, t') ->
  check E r = None
  /\ conflict (unique_columns E) (write E now r) t = None
  /\ t' = t ++ [write E now r].
Proof.
  unfold insert. destruct (check E r); [discriminate|].
  destruct (conflict _ _ _); [discriminate|].
  intros [= <-]. auto.
Qed.

(** An accepted insert keeps every unique column free of duplicates. *)
Lemma insert_keeps_distinct (E : Entity) (now : Z) (r : Row)
    (t t' : Table) (k : string) :
  In k (unique_columns E) ->
  distinct_on k t = true ->
  insert E now r t = (inr tt, t') ->
  distinct_on k t' = true.
Proof.
  intros Hk Hd Hi. apply insert_inversion in Hi.
  destruct Hi as [_ [Hc ->]].
  rewrite distinct_on_snoc, Hd, (conflict_none _ _ _ k Hc Hk). reflexivity.
Qed.

Lemma existsb_filter_negb {A} (p : A -> bool) (l : list A) :
  existsb p (filter (fun x => negb (p x)) l) = false.
Proof.
  induction l as [|a l IH]; [reflexivity|].
  cbn [filter]. destruct (p a) eqn:E; cbn [negb]; [exact IH|].
  cbn [existsb]. now rewrite E, IH.
Qed.

(** After [replace], the row found under a key is the new row. *)
Lemma find_replace (p : Row -> bool) (r' : Row) (t : Table) :
  (forall x, same_key r' x = p x) ->
  p r' = true ->
  existsb p t = true ->
  find p (replace r' t) = Some r'.
Proof.
  intros Hk Hr. induction t as [|a t IH]; [discriminate|].
  cbn [existsb replace map find]. rewrite Hk.
  destruct (p a) eqn:E.
  - now rewrite Hr.
  - rewrite E. cbn [orb]. exact IH.
Qed.

Lemma taken_ext (k : string) (r r' : Row) (t : Table) :
  get r k = get r' k -> taken k r t = taken k r' t.
Proof. intros H. unfold taken. now rewrite H. Qed.


Lemma chars_le_length (s : string) : (chars s <= String.length s)%nat.
Proof.
  induction s as [|a s IH]; [apply le_n|]. cbn [chars String.length].
  destruct (continues a); lia.
Qed.

(** A string of at most [n] bytes has at most [n] characters. *)
Lemma short_string_fits (s : string) (n : nat) :
  (String.length s <= n)%nat -> (N.of_nat (chars s) <=? N.of_nat n) = true.
Proof.
  intros H. apply N.leb_le. pose proof (chars_le_length s). lia.
Qed.

Lemma find_none_existsb {A} (p : A -> bool) (l : list A) :
  find p l = None -> existsb p l = false.
Proof.
  induction l as [|a l IH]; [reflexivity|]. cbn [find existsb].
  destruct (p a); [discriminate | exact IH].
Qed.

Lemma find_some_existsb {A} (p : A -> bool) (l : list A) (a : A) :
  find p l = Some a -> existsb p l = true.
Proof.
  intros H. destruct (find_some _ _ H) as [Hin Hp].
  apply existsb_exists. now exists a.
Qed.

Lemma find_app_fresh {A} (p : A -> bool) (l : list A) (a : A) :
  existsb p l = false -> p a = true -> find p (l ++ [a]) = Some a.
Proof.
  intros Hl Ha. induction l as [|b l IH]; cbn [app find].
  - now rewrite Ha.
  - cbn [existsb] in Hl. apply orb_false_iff in Hl. destruct Hl as [Hb Hl].
    rewrite Hb. now apply IH.
Qed.

Lemma assoc_app_l {A} (k : string) (l l' : list (string * A)) (a : A) :
  assoc k l = Some a -> assoc k (l ++ l') = Some a.
Proof.
  induction l as [|[k' a'] l IH]; [discriminate|].
  cbn [assoc app]. destruct (String.eqb k k'); [trivial | exact IH].
Qed.

Lemma assoc_app_r {A} (k : string) (l l' : list (string * A)) :
  assoc k l = None -> assoc k (l ++ l') = assoc k l'.
Proof.
  induction l as [|[k' a'] l IH]; [reflexivity|].
  cbn [assoc app]. destruct (String.eqb k k'); [discriminate | exact IH].
Qed.

Lemma assoc_In {A} (k : string) (l : list (string * A)) (a : A) :
  assoc k l = Some a -> In (k, a) l.
Proof.
  induction l as [|[k' a'] l IH]; [discriminate|]. cbn [assoc].
  destruct (String.eqb k k') eqn:E.
  - apply String.eqb_eq in E. intros H. inversion H. subst. now left.
  - intros H. right. now apply IH.
Qed.

Lemma In_assoc {A} (k : string) (l : list (string * A)) (a : A) :
  NoDup (map fst l) -> In (k, a) l -> assoc k l = Some a.
Proof.
  induction l as [|[k' a'] l IH]; intros D; [intros []|].
  inversion D as [|? ? Hn D']; subst. cbn [In assoc].
  intros [H | H].
  - injection H as -> ->. now rewrite String.eqb_refl.
  - destruct (String.eqb k k') eqn:E; [|now apply IH].
    apply String.eqb_eq in E. subst k'. elim Hn.
    change k with (fst (k, a)). now apply in_map.
Qed.

(** The cells of a written row are found under their column names. *)
Lemma assoc_written {A B} (F : string -> A -> B) (k : string)
    (l : list (string * A)) :
  assoc k (map (fun ko => (fst ko, F (fst ko) (snd ko))) l)
  = option_map (F k) (assoc k l).
Proof.
  induction l as [|[k' a] l IH]; [reflexivity|].
  cbn [map assoc fst snd]. destruct (String.eqb k k') eqn:E; [|exact IH].
  apply String.eqb_eq in E. now subst.
Qed.

Lemma assoc_keyed {B} (F : string -> B) (k : string) (l : list string) :
  assoc k (map (fun k' => (k', F k')) l)
  = if existsb (String.eqb k) l then Some (F k) else None.
Proof.
  induction l as [|k' l IH]; [reflexivity|].
  cbn [map assoc existsb]. destruct (String.eqb k k') eqn:E; [|exact IH].
  apply String.eqb_eq in E. now subst.
Qed.

Lemma get_write (E : Entity) (now : Z) (r : Row) (k : string)
    (o : ColumnOptions) :
  column E k = Some o ->
  get (write E now r) k = written now o (get r k).
Proof.
  intros H. unfold get at 1, write.
  rewrite (assoc_app_l k _ _ (written now o (get r k)));
    [reflexivity|].
  rewrite (assoc_written (fun k o => written now o (get r k))).
  unfold column in H. now rewrite H.
Qed.

Lemma check_columns_all (cols : list (string * ColumnOptions)) (r : Row) :
  check_columns cols r = None
  <-> Forall (fun ko => check_cell (snd ko) (get r (fst ko)) = None) cols.
Proof.
  induction cols as [|[k o] cols IH]; cbn [check_columns].
  - split; [constructor | reflexivity].
  - destruct (check_cell o (get r k)) as [why|] eqn:C.
    + split; [discriminate|]. intros H. inversion H as [|? ? H1 H2]. subst.
      cbn [fst snd] in H1. congruence.
    + rewrite IH. split; [now constructor|].
      intros H. now inversion H.
Qed.

(** *** Rows of objects *)

Lemma assoc_props (fields : list (string * option Cell)) (k : string) :
  NoDup (map fst fields) ->
  assoc k (props fields)
  = match assoc k fields with Some (Some c) => Some c | _ => None end.
Proof.
  induction fields as [|[k' [c|]] l IH]; intros D; [reflexivity| |];
    inversion D as [|? ? Hn D']; subst; cbn [props flat_map snd fst app assoc];
    fold (props l).
  - destruct (String.eqb k k'); [reflexivity | now apply IH].
  - destruct (String.eqb k k') eqn:E; [|now apply IH].
    apply String.eqb_eq in E. subst k'. rewrite (IH D').
    destruct (assoc k l) as [x|] eqn:A; [|reflexivity].
    apply assoc_In in A. elim Hn.
    change k with (fst (k, x)). now apply in_map.
Qed.

Lemma keys_props_In (fields : list (string * option Cell)) (k : string) :
  In k (map fst (props fields)) -> In k (map fst fields).
Proof.
  induction fields as [|[k' [c'|]] l IH];
    cbn [props flat_map snd fst app map In]; [tauto| |].
  - intros [H | H]; [now left | right; now apply IH].
  - intros H. right. now apply IH.
Qed.

Lemma keys_props (fields : list (string * option Cell)) :
  NoDup (map fst fields) -> NoDup (map fst (props fields)).
Proof.
  induction fields as [|[k [c|]] l IH]; intros D; [constructor| |];
    inversion D as [|? ? Hn D']; subst; cbn [props flat_map snd fst app map].
  - constructor; [|now apply IH].
    intros H. apply Hn. now apply keys_props_In.
  - now apply IH.
Qed.

Lemma Forall_props (P : string * Cell -> Prop)
    (fields : list (string * option Cell)) :
  Forall P (props fields)
  <-> Forall (fun kv => match snd kv with
                        | Some c => P (fst kv, c)
                        | None => True
                        end) fields.
Proof.
  induction fields as [|[k [c|]] l IH];
    cbn [props flat_map snd fst app].
  - split; constructor.
  - fold (props l). rewrite !Forall_cons_iff, IH. reflexivity.
  - fold (props l). rewrite Forall_cons_iff, IH. cbn [snd]. tauto.
Qed.

Lemma check_assigned_rejects (E : Entity) (cs : Row) (k why : string)
    (c : Cell) :
  In (k, c) cs ->
  check_assigned_cell E k c = Some why ->
  exists e, check_assigned E cs = Some e.
Proof.
  intros I C. induction cs as [|[k' c'] cs IH]; [destruct I|].
  cbn [check_assigned].
  destruct (check_assigned_cell E k' c') as [w|] eqn:C'; [eexists; reflexivity|].
  destruct I as [I | I]; [|now apply IH].
  injection I as -> ->. congruence.
Qed.

(** *** Updates *)

Lemma assoc_filter (p : string * Cell -> bool) (r : Row) (k : string) :
  NoDup (map fst r) ->
  assoc k (filter p r)
  = match assoc k r with
    | Some c => if p (k, c) then Some c else None
    | None => None
    end.
Proof.
  induction r as [|[k' c'] r IH]; intros D; [reflexivity|].
  inversion D as [|? ? Hn D']; subst. cbn [filter assoc].
  destruct (String.eqb k k') eqn:E.
  - apply String.eqb_eq in E. subst k'.
    destruct (p (k, c')); cbn [assoc]; [now rewrite String.eqb_refl|].
    rewrite (IH D').
    destruct (assoc k r) as [x|] eqn:A; [|reflexivity].
    apply assoc_In in A. elim Hn. change k with (fst (k, x)).
    now apply in_map.
  - destruct (p (k', c')); cbn [assoc]; [rewrite E|]; now apply IH.
Qed.

Lemma assoc_changes (r old : Row) (k : string) :
  NoDup (map fst r) ->
  assoc k (changes r old)
  = match assoc k r with
    | Some c => if cell_eqb (get old k) c then None else Some c
    | None => None
    end.
Proof.
  intros D. unfold changes. rewrite assoc_filter by exact D.
  destruct (assoc k r) as [c|]; [|reflexivity]. cbn [fst snd].
  now destruct (cell_eqb (get old k) c).
Qed.

Lemma changes_nil (r old : Row) (k : string) (c : Cell) :
  changes r old = [] -> assoc k r = Some c -> get old k = c.
Proof.
  intros H A. apply assoc_In in A.
  destruct (cell_eqb (get old k) c) eqn:E; [now apply cell_eqb_eq|].
  assert (I : In (k, c) (changes r old)).
  { unfold changes. apply filter_In. split; [exact A|].
    cbn [fst snd]. now rewrite E. }
  rewrite H in I. destruct I.
Qed.

Lemma check_assigned_filter (E : Entity) (p : string * Cell -> bool)
    (r : Row) :
  check_assigned E r = None -> check_assigned E (filter p r) = None.
Proof.
  induction r as [|[k c] r IH]; [reflexivity|]. cbn [check_assigned filter].
  destruct (check_assigned_cell E k c) eqn:C; [discriminate|]. intros H.
  destruct (p (k, c)); cbn [check_assigned]; [rewrite C|]; now apply IH.
Qed.

Lemma check_assigned_all (E : Entity) (r : Row) :
  check_assigned E r = None
  <-> Forall (fun kc => check_assigned_cell E (fst kc) (snd kc) = None) r.
Proof.
  induction r as [|[k c] r IH]; cbn [check_assigned].
  - split; [constructor | reflexivity].
  - destruct (check_assigned_cell E k c) as [why|] eqn:C.
    + split; [discriminate|]. intros H. inversion H as [|? ? H1 H2]. subst.
      cbn [fst snd] in H1. congruence.
    + rewrite IH. split; [now constructor|].
      intros H. now inversion H.
Qed.

(** The cell of a column after an update. *)
Lemma get_amend (E : Entity) (now : Z) (cs old : Row) (k : string)
    (o : ColumnOptions) :
  column E k = Some o ->
  get (amend E now cs old) k
  = match assoc k cs with
    | Some c => stored_as o c
    | None =>
      match decorator o with
      | UpdateDateColumnDecorator => CTime now
      | _ => get old k
      end
    end.
Proof.
  intros H. unfold get at 1, amend.
  erewrite assoc_app_l; [reflexivity|].
  rewrite (assoc_written
             (fun k o => match assoc k cs with
                         | Some c => stored_as o c
                         | None =>
                           match decorator o with
                           | UpdateDateColumnDecorator => CTime now
                           | _ => get old k
                           end
                         end) k (columns E)).
  unfold column in H. now rewrite H.
Qed.

(** The cell of a foreign key after an update. *)
Lemma get_amend_key (E : Entity) (now : Z) (cs old : Row) (k : string) :
  column E k = None ->
  existsb (String.eqb k) (foreign_keys E) = true ->
  get (amend E now cs old) k
  = match assoc k cs with Some c => c | None => get old k end.
Proof.
  intros H F. unfold get at 1, amend.
  rewrite assoc_app_r.
  - rewrite (assoc_keyed (fun k => match assoc k cs with
                                   | Some c => c
                                   | None => get old k
                                   end)).
    now rewrite F.
  - rewrite (assoc_written
               (fun k o => match assoc k cs with
                           | Some c => stored_as o c
                           | None =>
                             match decorator o with
                             | UpdateDateColumnDecorator => CTime now
                             | _ => get old k
                             end
                           end) k (columns E)).
    unfold column in H. now rewrite H.
Qed.

(** An update keeps the key of the row. *)
Lemma amend_same_key (E : Entity) (now : Z) (r old : Row)
    (o : ColumnOptions) :
  NoDup (map fst r) ->
  column E primary = Some o ->
  decorator o = PrimaryGeneratedColumnDecorator ->
  same_key r old = true ->
  get (amend E now (changes r old) old) primary = get r primary.
Proof.
  intros D C P K. rewrite (get_amend E now _ old primary o C).
  rewrite assoc_changes by exact D. rewrite P.
  unfold same_key in K. apply cell_eqb_eq in K.
  assert (G : get r primary
              = match assoc primary r with Some c => c | None => NULL end)
    by reflexivity.
  destruct (assoc primary r) as [c|] eqn:A.
  - rewrite K, G, cell_eqb_refl. reflexivity.
  - exact K.
Qed.

Lemma length_replace (r : Row) (t : Table) :
  List.length (replace r t) = List.length t.
Proof. apply length_map. Qed.

Lemma filter_replace (p : Row -> bool) (r' : Row) (t : Table) :
  (forall x, same_key r' x = p x) ->
  filter (fun x => negb (p x)) (replace r' t)
  = filter (fun x => negb (p x)) t.
Proof.
  intros K. induction t as [|a t IH]; [reflexivity|].
  cbn [replace map filter]. fold (replace r' t). rewrite K.
  destruct (p a) eqn:E.
  - rewrite <- (K r').
    replace (same_key r' r') with true
      by (symmetry; unfold same_key; apply cell_eqb_refl).
    cbn [negb]. exact IH.
  - rewrite E. cbn [negb]. now rewrite IH.
Qed.

(** An update with nothing to write. *)
Lemma update_idle (E : Entity) (now : Z) (r old : Row) (t : Table) :
  find (same_key r) t = Some old ->
  changes r old = [] ->
  update E now r t = (inr tt, t).
Proof. intros F C. unfold update. now rewrite F, C. Qed.

(** An update that writes. *)
Lemma update_written (E : Entity) (now : Z) (r old : Row) (t : Table) :
  find (same_key r) t = Some old ->
  changes r old <> [] ->
  check_assigned E (changes r old) = None ->
  conflict (unique_columns E) (amend E now (changes r old) old)
    (filter (fun x => negb (same_key r x)) t) = None ->
  update E now r t = (inr tt, replace (amend E now (changes r old) old) t).
Proof.
  intros F C A K. unfold update. rewrite F.
  destruct (changes r old) as [|c cs] eqn:H; [now elim C|].
  now rewrite A, K.
Qed.

(** An update touches no row under another key. *)
Lemma update_frame (E : Entity) (now : Z) (r : Row) (t t' : Table)
    (o : ColumnOptions) :
  NoDup (map fst r) ->
  column E primary = Some o ->
  decorator o = PrimaryGeneratedColumnDecorator ->
  update E now r t = (inr tt, t') ->
  filter (fun x => negb (same_key r x)) t'
  = filter (fun x => negb (same_key r x)) t.
Proof.
  intros D C P. unfold update.
  destruct (find (same_key r) t) as [old|] eqn:F; [|now intros [= <-]].
  destruct (changes r old) as [|c0 cs0] eqn:H; [now intros [= <-]|].
  destruct (check_assigned E _); [discriminate|].
  destruct (conflict _ _ _); [discriminate|].
  intros [= <-]. apply (filter_replace (same_key r)).
  intros x. unfold same_key. rewrite <- H.
  rewrite (amend_same_key E now r old o D C P); [reflexivity|].
  now destruct (find_some _ _ F).
Qed.

End StoreFacts.

(** ** The notification payload *)

Module NotificationFacts.

Import Async Notification StoreFacts.

(** The hook on a truthy message whose compression succeeds. *)
Lemma compressMessage_ok {zlib : Zlib.Codec} (this : t) (text : list N)
    (c : list byte) (log : Console) :
  JS.truthy (message this) = true ->
  JS.toString (message this) = inr text ->
  Zlib.deflate (Utf8.encode text) = inr c ->
  compressMessage this log = (inr (set_message (JS.Buf c) this), log).
Proof.
  intros Ht Hs Hc. unfold compressMessage. rewrite Ht.
  unfold try_catch, bind, await, deflateAsync, await, ret.
  rewrite Hs, Hc. reflexivity.
Qed.

(** The hook on a truthy message whose compression fails. *)
Lemma compressMessage_caught {zlib : Zlib.Codec} (this : t)
    (text : list N) (e : JS.Error) (log : Console) :
  JS.truthy (message this) = true ->
  JS.toString (message this) = inr text ->
  Zlib.deflate (Utf8.encode text) = inl e ->
  compressMessage this log = (inr this, log ++ [compression_error e]).
Proof.
  intros Ht Hs Hc. unfold compressMessage. rewrite Ht.
  unfold try_catch, bind, await, deflateAsync, await, ret, console_error.
  rewrite Hs, Hc. reflexivity.
Qed.

(** [getMessage] on bytes that [unzip] accepts. *)
Lemma getMessage_ok {zlib : Zlib.Codec} (this : t) (b d : list byte)
    (log : Console) :
  JS.Buffer_from (message this) = inr b ->
  Zlib.unzip b = inr d ->
  getMessage this log = (inr (Utf8.decode d), log).
Proof.
  intros Hb Hd. unfold getMessage, try_catch, bind, await, unzipAsync,
    await, ret.
  rewrite Hb, Hd. reflexivity.
Qed.

(** The hook followed by [getMessage], on a buffer. *)
Lemma getMessage_after_hook {zlib : Zlib.Codec} (this : t)
    (m c : list byte) (log : Console) :
  Zlib.Lawful zlib ->
  message this = JS.Buf m ->
  Zlib.deflate (Utf8.encode (Utf8.decode m)) = inr c ->
  bind (compressMessage this) getMessage log = (inr (Utf8.decode m), log).
Proof.
  intros Hlaw Hm Hc. unfold bind.
  rewrite (compressMessage_ok this (Utf8.decode m) c log);
    [| now rewrite Hm | now rewrite Hm | exact Hc].
  rewrite (getMessage_ok _ c (Utf8.encode (Utf8.decode m)));
    [| reflexivity | now apply Hlaw].
  now rewrite Utf8Facts.decode_encode_decode.
Qed.

(** The hook always resolves, and assigns at most the [message]
    property: a message that the column takes is still one afterwards,
    and a falsy message is left as it is. *)
Lemma compressMessage_total {zlib : Zlib.Codec} (this : t)
    (log : Console) :
  exists v log',
    compressMessage this log = (inr (set_message v this), log')
    /\ (storable (message this) = true -> storable v = true)
    /\ (JS.truthy (message this) = false -> v = message this /\ log' = log).
Proof.
  destruct this as [u st us ch msg sta se de er su].
  unfold compressMessage. cbn [message].
  destruct msg as [| | [|c s] | b]; cbn [JS.truthy];
    unfold try_catch, bind, await, deflateAsync, await, ret,
      console_error; cbn [JS.toString].
  - exists JS.undefined, log. repeat split; auto.
  - exists JS.null, log. repeat split; auto.
  - exists (JS.Str []), log. repeat split; auto.
  - destruct (Zlib.deflate _) as [e|c'].
    + exists (JS.Str (c :: s)), (log ++ [compression_error e]).
      repeat split; auto; discriminate.
    + exists (JS.Buf c'), log. repeat split; auto; discriminate.
  - destruct (Zlib.deflate _) as [e|c'].
    + exists (JS.Buf b), (log ++ [compression_error e]).
      repeat split; auto; discriminate.
    + exists (JS.Buf c'), log. repeat split; auto; discriminate.
Qed.

(** C1, as the code has it.  For every byte sequence [m] assigned as the
    message, whenever the compression in the hook succeeds, [getMessage]
    after [compressMessage] resolves with [m.toString("utf-8")] and logs
    nothing; the bytes of that string are [m] again exactly when [m] is
    the UTF-8 encoding of a well-formed string. *)
Theorem getMessage_after_compressMessage (zlib : Zlib.Codec) (this : t)
    (m c : list byte) (log : Console) :
  Zlib.Lawful zlib ->
  message this = JS.Buf m ->
  Zlib.deflate (Utf8.encode (Utf8.decode m)) = inr c ->
  bind (compressMessage this) getMessage log = (inr (Utf8.decode m), log)
  /\ (Utf8.encode (Utf8.decode m) = m
      <-> exists s, Utf8.well_formed s /\ Utf8.encode s = m).
Proof.
  intros Hlaw Hm Hc. split.
  - now apply getMessage_after_hook with (c := c).
  - split.
    + intros H. exists (Utf8.decode m).
      split; [apply Utf8Facts.decode_well_formed | exact H].
    + intros [s [Hs <-]]. now rewrite Utf8Facts.decode_encode.
Qed.

(** The statement above at the message "Hello". *)
Lemma getMessage_after_compressMessage_witness :
  Zlib.Lawful (Zlib.stored Zlib.kMaxLength)
  /\ message Samples.hello = JS.Buf Samples.Hello
  /\ Zlib.deflate (Codec := Zlib.stored Zlib.kMaxLength)
       (Utf8.encode (Utf8.decode Samples.Hello))
     = inr (Zlib.stream Samples.Hello)
  /\ bind (compressMessage (zlib := Zlib.stored Zlib.kMaxLength)
             Samples.hello)
       (getMessage (zlib := Zlib.stored Zlib.kMaxLength)) []
     = (inr (Utf8.of_string "Hello"), []).
Proof.
  assert (L : Zlib.Lawful (Zlib.stored Zlib.kMaxLength))
    by apply ZlibFacts.stored_lawful.
  assert (M : message Samples.hello = JS.Buf Samples.Hello)
    by reflexivity.
  assert (D : Zlib.deflate (Codec := Zlib.stored Zlib.kMaxLength)
                (Utf8.encode (Utf8.decode Samples.Hello))
              = inr (Zlib.stream Samples.Hello)) by (vm_compute; reflexivity).
  split; [exact L|]. split; [exact M|]. split; [exact D|].
  exact (proj1 (getMessage_after_compressMessage
                  (Zlib.stored Zlib.kMaxLength) Samples.hello Samples.Hello
                  (Zlib.stream Samples.Hello) [] L M D)).
Defined.

(** C1 as stated fails: the message [0xFF] comes back as U+FFFD, whose
    bytes are [EF BF BD]. *)
Lemma roundtrip_replaces_invalid_bytes :
  bind (compressMessage (zlib := Zlib.stored Zlib.kMaxLength)
          Samples.binary)
    (getMessage (zlib := Zlib.stored Zlib.kMaxLength)) []
  = (inr [0xFFFD], [])
  /\ JS.Buffer_from (JS.Str [0xFFFD]) = inr [xef; xbf; xbd]
  /\ [xef; xbf; xbd] <> [xff].
Proof.
  split; [vm_compute; reflexivity|].
  split; [vm_compute; reflexivity | discriminate].
Qed.

(** C2, as the code has it.  When the stored bytes are not a stream
    that [unzip] accepts, [getMessage] catches the error, writes it to
    the console and resolves with the empty string: the caller sees no
    failure. *)
Theorem getMessage_resolves_empty_on_fault (zlib : Zlib.Codec) (this : t)
    (b : list byte) (e : JS.Error) (log : Console) :
  JS.Buffer_from (message this) = inr b ->
  Zlib.unzip b = inl e ->
  getMessage this log = (inr [], log ++ [decompression_error e]).
Proof.
  intros Hb He.
  unfold getMessage, try_catch, bind, await, unzipAsync, await, ret,
    console_error.
  rewrite Hb, He. reflexivity.
Qed.

(** The statement above at a stored message that holds the plain bytes
    of "Hello". *)
Lemma getMessage_resolves_empty_on_fault_witness :
  JS.Buffer_from (message Samples.hello) = inr Samples.Hello
  /\ Zlib.unzip (Codec := Zlib.stored Zlib.kMaxLength) Samples.Hello
     = inl (JS.ZlibError "Z_DATA_ERROR")
  /\ getMessage (zlib := Zlib.stored Zlib.kMaxLength) Samples.hello []
     = (inr [], [decompression_error (JS.ZlibError "Z_DATA_ERROR")]).
Proof.
  assert (B : JS.Buffer_from (message Samples.hello) = inr Samples.Hello)
    by reflexivity.
  assert (U : Zlib.unzip (Codec := Zlib.stored Zlib.kMaxLength)
                Samples.Hello = inl (JS.ZlibError "Z_DATA_ERROR"))
    by (vm_compute; reflexivity).
  split; [exact B|]. split; [exact U|].
  exact (getMessage_resolves_empty_on_fault
           (Zlib.stored Zlib.kMaxLength) Samples.hello Samples.Hello
           (JS.ZlibError "Z_DATA_ERROR") [] B U).
Defined.

(** C2 as stated fails: the bytes of "Hello" are not a compressed
    stream, and [getMessage] resolves -- with the empty string. *)
Lemma getMessage_hides_corrupt_storage :
  Zlib.unzip (Codec := Zlib.stored Zlib.kMaxLength) Samples.Hello
  = inl (JS.ZlibError "Z_DATA_ERROR")
  /\ fst (getMessage (zlib := Zlib.stored Zlib.kMaxLength)
            Samples.hello [])
     = inr [].
Proof. split; vm_compute; reflexivity. Qed.

(** *** The row of an object *)

Lemma set_message_same (this : t) : set_message (message this) this = this.
Proof. now destruct this. Qed.

Lemma fields_NoDup (this : t) : NoDup (map fst (fields this)).
Proof.
  cbn [fields map fst].
  repeat (constructor;
          [let H := fresh in
           intros H; cbn [In] in H; intuition discriminate|]).
  constructor.
Qed.

Lemma keys_row (this : t) : NoDup (map fst (row this)).
Proof. apply keys_props, fields_NoDup. Qed.

Lemma assoc_row (this : t) (k : string) :
  assoc k (row this)
  = match assoc k (fields this) with Some (Some c) => Some c | _ => None end.
Proof. apply assoc_props, fields_NoDup. Qed.

Lemma get_row (this : t) (k : string) :
  get (row this) k
  = match assoc k (fields this) with Some (Some c) => c | _ => NULL end.
Proof.
  unfold get. rewrite assoc_row.
  now destruct (assoc k (fields this)) as [[c|]|].
Qed.

(** The hook leaves every entry of the row but [message] as it was. *)
Lemma assoc_row_set_message (this : t) (v : JS.Value) (k : string) :
  k <> "message" ->
  assoc k (row (set_message v this)) = assoc k (row this).
Proof.
  intros N. rewrite !assoc_row. unfold fields.
  cbn [assoc set_message uuid studio user channel message status sendAt
       deliveredAt errorLog subject].
  replace (String.eqb k "message") with false
    by (symmetry; now apply String.eqb_neq).
  reflexivity.
Qed.

Lemma unique_columns_Notification : unique_columns entity = ["uuid"].
Proof. reflexivity. Qed.

(** What an insert checks on the row of a notification. *)
Lemma notification_row_is_checked (this : t) :
  check entity (row this) = None <-> acceptable this = true.
Proof.
  unfold check.
  replace (check_relations (relations entity) (row this))
    with (@None JS.Error) by reflexivity.
  transitivity (check_columns (columns entity) (row this) = None).
  { destruct (check_columns _ _); split; congruence. }
  rewrite check_columns_all.
  unfold entity, extends, BaseUUIDEntity.entity. cbn [columns app].
  repeat rewrite Forall_cons_iff. rewrite Forall_nil_iff. cbn [fst snd].
  rewrite !get_row.
  destruct this as [u st us ch msg sta se de er su].
  cbn [assoc fields String.eqb Ascii.eqb Bool.eqb uuid studio user channel
       message status sendAt deliveredAt errorLog subject].
  unfold acceptable, valid. cbn [channel message status sendAt subject].
  rewrite !andb_true_iff.
  assert (A1 : forall (vs : list string) (d : Default) (x : option string),
             check_cell (Column enum [Enum vs; DefaultTo d])
               (match option_map CStr x with Some c => c | None => NULL end)
             = None <-> member vs x = true).
  { intros vs d [c|]; cbn -[existsb]; [destruct (existsb _ _)|];
      split; congruence. }
  assert (A2 : check_cell (Column bytea [])
                 (match cell_of_message msg with
                  | Some c => c
                  | None => NULL
                  end) = None <-> storable msg = true).
  { destruct msg as [| | s | b];
      cbn -[bytea_in list_byte_of_string text_of];
      [| | destruct (bytea_in _)|]; split; congruence. }
  assert (A3 : check_cell (Column timestamp [])
                 (match option_map CTime se with
                  | Some c => c
                  | None => NULL
                  end) = None <-> assigned se = true).
  { destruct se; cbn; split; congruence. }
  assert (A4 : check_cell (Column varchar [Length 255; Nullable true])
                 (match option_map CStr su with
                  | Some c => c
                  | None => NULL
                  end) = None <-> fits 255 su = true).
  { destruct su as [c|]; cbn -[N.leb N.of_nat chars];
      [destruct (_ <=? _)|]; split; congruence. }
  rewrite !A1, A2, A3, A4.
  destruct de, er; cbn; intuition congruence.
Qed.

(** What an update checks on the row of a notification. *)
Lemma row_is_assignable (this : t) :
  assignable this = true -> check_assigned entity (row this) = None.
Proof.
  intros A. apply check_assigned_all. unfold row. apply Forall_props.
  destruct this as [u st us ch msg sta se de er su].
  unfold assignable, valid in A. cbn [channel message status subject] in A.
  rewrite !andb_true_iff in A. destruct A as [[[A1 A2] A3] A4].
  unfold fields.
  cbn [uuid studio user channel message status sendAt deliveredAt errorLog
       subject].
  repeat rewrite Forall_cons_iff. rewrite Forall_nil_iff. cbn [fst snd].
  repeat split.
  - destruct ch as [c|]; [|exact I]. cbn -[existsb].
    cbn [member] in A1. now rewrite A1.
  - destruct msg as [| | s | b]; cbn -[bytea_in list_byte_of_string text_of];
      try discriminate; try reflexivity; try exact I.
    cbn [storable] in A4. now destruct (bytea_in _).
  - destruct sta as [c|]; [|exact I]. cbn -[existsb].
    cbn [member] in A2. now rewrite A2.
  - now destruct se.
  - now destruct de.
  - now destruct er.
  - destruct su as [c|]; [|exact I]. cbn -[N.leb N.of_nat chars].
    cbn [fits] in A3. now rewrite A3.
  - now destruct st.
  - now destruct us.
Qed.

Lemma acceptable_assignable (this : t) :
  acceptable this = true -> assignable this = true.
Proof.
  unfold acceptable, assignable. rewrite !andb_true_iff.
  intros [[V S] _]. split; [exact V|].
  destruct (message this); try discriminate; exact S.
Qed.

(** The hook keeps an object fit for the store. *)
Lemma acceptable_set_message (this : t) (v : JS.Value) :
  (storable (message this) = true -> storable v = true) ->
  acceptable this = true -> acceptable (set_message v this) = true.
Proof.
  unfold acceptable, valid.
  cbn [set_message channel message status sendAt subject].
  rewrite !andb_true_iff. intros H [[V S] A]. auto.
Qed.

Lemma assignable_set_message (this : t) (v : JS.Value) :
  (storable (message this) = true -> storable v = true) ->
  (JS.truthy (message this) = false -> v = message this) ->
  assignable this = true -> assignable (set_message v this) = true.
Proof.
  unfold assignable, valid.
  cbn [set_message channel message status sendAt subject].
  rewrite !andb_true_iff. intros H F [V S]. split; [exact V|].
  destruct (message this) eqn:M.
  - now rewrite (F eq_refl).
  - discriminate.
  - specialize (H S). destruct v; try discriminate; exact H.
  - specialize (H S). destruct v; try discriminate; exact H.
Qed.

(** *** [save], case by case *)

(** [save] when there is something to write, once the outcome of the
    hook is known. *)
Lemma save_unfold {zlib : Zlib.Codec} (now : Z) (this this' : t)
    (table : Table) (log log' : Console) :
  pending this table = true ->
  compressMessage this log = (inr this', log') ->
  save now this table log = (written_as_is now this' table, log').
Proof.
  intros P H. unfold save, bind, await. now rewrite P, H.
Qed.

(** [save] when the object equals its stored row. *)
Lemma save_idle {zlib : Zlib.Codec} (now : Z) (this : t) (table : Table)
    (log : Console) :
  pending this table = false ->
  save now this table log = (inr (this, table), log)
  /\ written_as_is now this table = inr (this, table).
Proof.
  intros P. split; [unfold save; now rewrite P|].
  unfold pending in P. unfold written_as_is.
  destruct (find (same_key (row this)) table) as [old|] eqn:F;
    [|discriminate].
  destruct (changes (row this) old) eqn:C; [|discriminate].
  now rewrite (update_idle entity now (row this) old table F C).
Qed.

Lemma pending_new (this : t) (table : Table) :
  find (same_key (row this)) table = None -> pending this table = true.
Proof. intros F. unfold pending. now rewrite F. Qed.

Lemma pending_stored (this : t) (old : Row) (table : Table) :
  find (same_key (row this)) table = Some old ->
  pending this table = true <-> changes (row this) old <> [].
Proof.
  intros F. unfold pending. rewrite F.
  destruct (changes (row this) old); split; congruence.
Qed.

(** The write of an object that has no row yet. *)
Lemma written_new (now : Z) (this : t) (table : Table) :
  acceptable this = true ->
  find (same_key (row this)) table = None ->
  written_as_is now this table
  = inr (returned (write entity now (row this)) this,
         table ++ [write entity now (row this)]).
Proof.
  intros A F. unfold written_as_is. rewrite F.
  rewrite insert_accepted;
    [reflexivity | now apply notification_row_is_checked|].
  unfold conflict. rewrite unique_columns_Notification. cbn [find].
  apply find_none_existsb in F.
  replace (taken "uuid" (write entity now (row this)) table) with false
    by (symmetry; exact F).
  reflexivity.
Qed.

(** The write of an object over its stored row. *)
Lemma written_stored (now : Z) (this : t) (old : Row) (table : Table) :
  assignable this = true ->
  find (same_key (row this)) table = Some old ->
  exists table' r',
    written_as_is now this table = inr (this, table')
    /\ find (same_key (row this)) table' = Some r'
    /\ List.length table' = List.length table
    /\ filter (fun x => negb (same_key (row this) x)) table'
       = filter (fun x => negb (same_key (row this) x)) table
    /\ (forall k o,
          column entity k = Some o ->
          decorator o <> UpdateDateColumnDecorator ->
          get r' k = settled o (assoc k (row this)) (get old k))
    /\ (changes (row this) old = [] -> table' = table)
    /\ (changes (row this) old <> [] -> get r' "updatedAt" = CTime now).
Proof.
  intros A F. unfold written_as_is. rewrite F.
  pose proof (keys_row this) as D.
  destruct (find_some _ _ F) as [_ K].
  destruct (changes (row this) old) as [|c0 cs0] eqn:C.
  - rewrite (update_idle entity now (row this) old table F C).
    exists table, old. repeat split; auto.
    + intros k o _ _. unfold settled.
      destruct (assoc k (row this)) as [c|] eqn:G; [|reflexivity].
      rewrite <- (changes_nil _ _ _ _ C G). now rewrite cell_eqb_refl.
    + intros N. now elim N.
  - set (r' := amend entity now (changes (row this) old) old).
    assert (P : get r' primary = get (row this) primary).
    { apply (amend_same_key entity now (row this) old
               (PrimaryGeneratedColumn TypeORM.uuid));
        [exact D | reflexivity | reflexivity | exact K]. }
    assert (S : forall x, same_key r' x = same_key (row this) x).
    { intros x. unfold same_key. now rewrite P. }
    assert (U : update entity now (row this) table
                = (inr tt, replace r' table)).
    { apply (update_written entity now (row this) old table F).
      - rewrite C. discriminate.
      - apply check_assigned_filter. now apply row_is_assignable.
      - fold r'. unfold conflict. rewrite unique_columns_Notification.
        cbn [find].
        replace (taken "uuid" r'
                   (filter (fun x => negb (same_key (row this) x)) table))
          with false; [reflexivity|].
        symmetry. unfold taken. change "uuid" with primary. rewrite P.
        replace (existsb _ _) with false; [apply andb_false_r|].
        symmetry. exact (existsb_filter_negb (same_key (row this)) table). }
    rewrite <- C. rewrite U. exists (replace r' table), r'.
    split; [reflexivity|]. split; [|split; [|split; [|split; [|split]]]].
    + apply find_replace; [exact S | | now apply (find_some_existsb _ _ old)].
      rewrite <- S. unfold same_key. apply cell_eqb_refl.
    + apply length_replace.
    + now apply (filter_replace (same_key (row this))).
    + intros k o Ho Hd. unfold r'.
      rewrite (get_amend entity now _ old k o Ho).
      rewrite assoc_changes by exact D. unfold settled.
      destruct (assoc k (row this)) as [c|];
        [destruct (cell_eqb (get old k) c)|];
        destruct (decorator o); try reflexivity; now elim Hd.
    + intros N. rewrite C in N. discriminate.
    + intros _. unfold r'.
      rewrite (get_amend entity now _ old "updatedAt"
                 (UpdateDateColumn timestamp
                    [DefaultTo CURRENT_TIMESTAMP;
                     OnUpdate "CURRENT_TIMESTAMP"]) eq_refl).
      rewrite assoc_changes by exact D.
      now rewrite assoc_row.
Qed.

(** [save] of an object that has no row yet: the hook runs, and the row
    of the object as the hook left it is inserted. *)
Lemma save_new {zlib : Zlib.Codec} (now : Z) (this : t) (table : Table)
    (log : Console) :
  acceptable this = true ->
  find (same_key (row this)) table = None ->
  exists v log',
    compressMessage this log = (inr (set_message v this), log')
    /\ (JS.truthy (message this) = false -> v = message this /\ log' = log)
    /\ save now this table log
       = (inr (returned (write entity now (row (set_message v this)))
                 (set_message v this),
               table ++ [write entity now (row (set_message v this))]),
          log').
Proof.
  intros A F.
  destruct (compressMessage_total this log) as [v [log' [H [S T]]]].
  exists v, log'. split; [exact H|]. split; [exact T|].
  rewrite (save_unfold now this _ table log log' (pending_new _ _ F) H).
  now rewrite (written_new now (set_message v this) table
                 (acceptable_set_message this v S A) F).
Qed.

(** [save] of an object that has a row: the columns of the stored row
    afterwards. *)
Lemma save_stored {zlib : Zlib.Codec} (now : Z) (this : t) (old : Row)
    (table : Table) (log : Console) :
  assignable this = true ->
  find (same_key (row this)) table = Some old ->
  exists v log' table' r',
    save now this table log = (inr (set_message v this, table'), log')
    /\ find (same_key (row this)) table' = Some r'
    /\ List.length table' = List.length table
    /\ filter (fun x => negb (same_key (row this) x)) table'
       = filter (fun x => negb (same_key (row this) x)) table
    /\ (forall k o,
          column entity k = Some o ->
          decorator o <> UpdateDateColumnDecorator ->
          k <> "message" ->
          get r' k = settled o (assoc k (row this)) (get old k))
    /\ (changes (row this) old = [] ->
        v = message this /\ table' = table /\ log' = log)
    /\ (JS.truthy (message this) = false ->
        v = message this /\ log' = log
        /\ get r' "message"
           = settled (Column bytea []) (assoc "message" (row this))
               (get old "message"))
    /\ ((exists k c, In (k, c) (changes (row this) old) /\ k <> "message") ->
        get r' "updatedAt" = CTime now).
Proof.
  intros A F.
  destruct (changes (row this) old) as [|c0 cs0] eqn:C.
  - assert (P : pending this table = false)
      by (unfold pending; now rewrite F, C).
    destruct (save_idle now this table log P) as [S _].
    destruct (written_stored now this old table A F)
      as [t1 [r1 [_ [F1 [_ [_ [G [I _]]]]]]]].
    rewrite C in I. rewrite (I eq_refl) in F1.
    assert (r1 = old) by congruence. subst r1.
    exists (message this), log, table, old.
    rewrite set_message_same.
    split; [exact S|]. split; [exact F|]. split; [reflexivity|].
    split; [reflexivity|]. split; [intros k o Ho Hd _; now apply G|].
    split; [auto|]. split.
    + intros _. split; [reflexivity|]. split; [reflexivity|].
      apply G; [reflexivity | discriminate].
    + intros [k [c [[] _]]].
  - assert (P : pending this table = true)
      by (unfold pending; now rewrite F, C).
    destruct (compressMessage_total this log) as [v [log' [H [S T]]]].
    set (this' := set_message v this) in *.
    assert (A' : assignable this' = true).
    { apply assignable_set_message; [exact S | | exact A].
      intros X. now destruct (T X). }
    destruct (written_stored now this' old table A' F)
      as [t1 [r1 [W [F1 [L1 [R1 [G [_ U]]]]]]]].
    exists v, log', t1, r1.
    split; [rewrite (save_unfold now this this' table log log' P H),
              W; reflexivity|].
    split; [exact F1|]. split; [exact L1|]. split; [exact R1|].
    split; [|split; [|split]].
    + intros k o Ho Hd Hk. rewrite (G k o Ho Hd).
      unfold this'. now rewrite assoc_row_set_message.
    + discriminate.
    + intros X. destruct (T X) as [-> ->].
      split; [reflexivity|]. split; [reflexivity|].
      rewrite (G "message" (Column bytea []) eq_refl) by discriminate.
      unfold this'. now rewrite set_message_same.
    + intros [k [c [I Hk]]]. rewrite <- C in I. apply U.
      unfold changes in I. apply filter_In in I. destruct I as [I X].
      apply (In_assoc _ _ _ (keys_row this)) in I.
      rewrite <- (assoc_row_set_message this v k Hk) in I.
      fold this' in I. apply assoc_In in I.
      intros E.
      assert (I' : In (k, c) (changes (row this') old))
        by (unfold changes; apply filter_In; split; [exact I | exact X]).
      rewrite E in I'. destruct I'.
Qed.

(** C3, as the code has it.  When the compression of a truthy message
    fails, the hook logs the error and resolves with the object
    untouched.  [save] then goes on: when it has something to write (the
    object is new, or differs from its stored row) it writes the row of
    that object, message included, and fails only if the store itself
    rejects the row; when the object equals its stored row, no hook runs
    and nothing is written. *)
Theorem save_proceeds_after_compression_fault (zlib : Zlib.Codec)
    (this : t) (text : list N) (e : JS.Error) (now : Z) (table : Table)
    (log : Console) :
  JS.truthy (message this) = true ->
  JS.toString (message this) = inr text ->
  Zlib.deflate (Utf8.encode text) = inl e ->
  compressMessage this log = (inr this, log ++ [compression_error e])
  /\ save now this table log
     = if pending this table
       then (written_as_is now this table, log ++ [compression_error e])
       else (inr (this, table), log).
Proof.
  intros Ht Hs Hc.
  pose proof (compressMessage_caught this text e log Ht Hs Hc) as H.
  split; [exact H|].
  destruct (pending this table) eqn:P.
  - now apply save_unfold.
  - now apply save_idle.
Qed.

(** The statement above with an output limit of sixteen bytes and the
    message "Hello, world!", saved for the first time. *)
Lemma save_proceeds_after_compression_fault_witness :
  JS.truthy (message Samples.greeting) = true
  /\ JS.toString (message Samples.greeting)
     = inr (Utf8.of_string "Hello, world!")
  /\ Zlib.deflate (Codec := Zlib.stored 16)
       (Utf8.encode (Utf8.of_string "Hello, world!"))
     = inl (JS.RangeError "ERR_BUFFER_TOO_LARGE")
  /\ save (zlib := Zlib.stored 16) 1700000001 Samples.greeting [] []
     = (inr (set_status "pending" Samples.greeting,
             [write entity 1700000001 (row Samples.greeting)]),
        [compression_error (JS.RangeError "ERR_BUFFER_TOO_LARGE")]).
Proof.
  assert (T : JS.truthy (message Samples.greeting) = true) by reflexivity.
  assert (S : JS.toString (message Samples.greeting)
              = inr (Utf8.of_string "Hello, world!"))
    by (vm_compute; reflexivity).
  assert (D : Zlib.deflate (Codec := Zlib.stored 16)
                (Utf8.encode (Utf8.of_string "Hello, world!"))
              = inl (JS.RangeError "ERR_BUFFER_TOO_LARGE"))
    by (vm_compute; reflexivity).
  split; [exact T|]. split; [exact S|]. split; [exact D|].
  exact (proj2 (save_proceeds_after_compression_fault
                  (Zlib.stored 16) Samples.greeting
                  (Utf8.of_string "Hello, world!")
                  (JS.RangeError "ERR_BUFFER_TOO_LARGE")
                  1700000001 [] [] T S D)).
Defined.

(** C3 as stated fails: with an output limit of sixteen bytes the
    compression of "Hello, world!" fails, [save] resolves all the same,
    and the row it stored holds the plain text. *)
Lemma plaintext_is_persisted_after_fault :
  Zlib.deflate (Codec := Zlib.stored 16)
    (Utf8.encode (Utf8.of_string "Hello, world!"))
  = inl (JS.RangeError "ERR_BUFFER_TOO_LARGE")
  /\ exists table,
       fst (save (zlib := Zlib.stored 16) 1700000001 Samples.greeting
              [] [])
       = inr (set_status "pending" Samples.greeting, table)
       /\ stored_message Samples.greeting table
          = Some (CBytes (Utf8.encode (Utf8.of_string "Hello, world!"))).
Proof.
  split; [vm_compute; reflexivity|].
  eexists. split; vm_compute; reflexivity.
Qed.

(** C4 on the code.  "Hello" is saved, then the same object is saved
    again after a change of [status] only.  The hook runs on the second
    save too and compresses the compressed bytes: the stored message
    changes, and [getMessage] no longer resolves with "Hello". *)
Theorem second_save_compresses_again :
  exists n1 t1 n2 t2,
    save (zlib := Zlib.stored Zlib.kMaxLength) 1700000001 Samples.hello
      [] [] = (inr (n1, t1), [])
    /\ save (zlib := Zlib.stored Zlib.kMaxLength) 1700000002
         (set_status "sent" n1) t1 [] = (inr (n2, t2), [])
    /\ stored_message n1 t1 = Some (CBytes (Zlib.stream Samples.Hello))
    /\ stored_message n2 t2
       = Some (CBytes (Zlib.stream
                         (Utf8.encode
                            (Utf8.decode (Zlib.stream Samples.Hello)))))
    /\ stored_message n2 t2 <> stored_message n1 t1
    /\ getMessage (zlib := Zlib.stored Zlib.kMaxLength) n1 []
       = (inr (Utf8.of_string "Hello"), [])
    /\ getMessage (zlib := Zlib.stored Zlib.kMaxLength) n2 []
       = (inr (Utf8.decode (Zlib.stream Samples.Hello)), [])
    /\ Utf8.decode (Zlib.stream Samples.Hello) <> Utf8.of_string "Hello".
Proof.
  do 4 eexists.
  split; [vm_compute; reflexivity|].
  split; [vm_compute; reflexivity|].
  split; [vm_compute; reflexivity|].
  split; [vm_compute; reflexivity|].
  split; [vm_compute; discriminate|].
  split; [vm_compute; reflexivity|].
  split; [vm_compute; reflexivity | vm_compute; discriminate].
Qed.

(** The same for every codec that honours the contract: a second run of
    the hook on the compressed buffer [c] stores the compression of
    [c.toString("utf-8")], and [getMessage] then resolves with that
    string instead of the message. *)
Lemma compressMessage_twice (zlib : Zlib.Codec) (this : t)
    (m c c' : list byte) (log : Console) :
  Zlib.Lawful zlib ->
  message this = JS.Buf m ->
  Zlib.deflate (Utf8.encode (Utf8.decode m)) = inr c ->
  Zlib.deflate (Utf8.encode (Utf8.decode c)) = inr c' ->
  bind (compressMessage this)
    (fun this' => bind (compressMessage this') getMessage) log
  = (inr (Utf8.decode c), log).
Proof.
  intros Hlaw Hm Hc Hc'. unfold bind at 1.
  rewrite (compressMessage_ok this (Utf8.decode m) c log);
    [| now rewrite Hm | now rewrite Hm | exact Hc].
  now apply getMessage_after_hook with (c := c').
Qed.

(** C10, as the code has it.  A falsy message -- [undefined], [null] or
    the empty string -- makes the hook a no-op: it resolves with the
    object as it is and logs nothing, so that [save] writes the object
    as it is.  The empty string is then stored as the empty byte
    sequence, with no zlib header.  A message that is unset is not
    persisted: the column is required, and the insert is refused. *)
Theorem compressMessage_skips_falsy_message (zlib : Zlib.Codec) (this : t)
    (now : Z) (table : Table) (log : Console) :
  JS.truthy (message this) = false ->
  compressMessage this log = (inr this, log)
  /\ save now this table log = (written_as_is now this table, log)
  /\ (message this = JS.Str [] ->
      acceptable this = true ->
      (forall old, find (same_key (row this)) table = Some old ->
                   exists b, get old "message" = CBytes b) ->
      exists this' table',
        save now this table log = (inr (this', table'), log)
        /\ message this' = JS.Str []
        /\ stored_message this table' = Some (CBytes []))
  /\ (message this = JS.undefined \/ message this = JS.null ->
      find (same_key (row this)) table = None ->
      exists e, save now this table log = (inl e, log)).
Proof.
  intros H.
  assert (C : compressMessage this log = (inr this, log))
    by (unfold compressMessage; now rewrite H).
  assert (S : save now this table log = (written_as_is now this table, log)).
  { destruct (pending this table) eqn:P; [now apply save_unfold|].
    destruct (save_idle now this table log P) as [S W]. now rewrite S, W. }
  split; [exact C|]. split; [exact S|]. split.
  - intros E A B. rewrite S. unfold stored_message.
    destruct (find (same_key (row this)) table) as [old|] eqn:F.
    + destruct (written_stored now this old table
                  (acceptable_assignable this A) F)
        as [t1 [r1 [W [F1 [_ [_ [G _]]]]]]].
      exists this, t1. rewrite W, F1. cbn [option_map].
      split; [reflexivity|]. split; [exact E|]. f_equal.
      rewrite (G "message" (Column bytea []) eq_refl) by discriminate.
      destruct (B old eq_refl) as [b ->].
      rewrite assoc_row. unfold fields. cbn [assoc String.eqb Ascii.eqb Bool.eqb].
      rewrite E. reflexivity.
    + rewrite (written_new now this table A F).
      eexists _, _. split; [reflexivity|]. split; [exact E|].
      rewrite find_app_fresh;
        [| now apply find_none_existsb
         | unfold same_key; apply cell_eqb_refl].
      cbn [option_map]. f_equal.
      rewrite (get_write entity now (row this) "message" (Column bytea []))
        by reflexivity.
      rewrite get_row. unfold fields.
      cbn [assoc String.eqb Ascii.eqb Bool.eqb]. rewrite E. reflexivity.
  - intros U F. rewrite S. unfold written_as_is. rewrite F.
    destruct (check entity (row this)) as [e|] eqn:K.
    + exists e. unfold insert. now rewrite K.
    + apply notification_row_is_checked in K. unfold acceptable in K.
      destruct U as [U | U]; rewrite U in K; cbn [storable] in K;
        rewrite andb_false_r in K; discriminate.
Qed.

(** The statement above at the empty string, saved for the first time. *)
Lemma compressMessage_skips_falsy_message_witness :
  JS.truthy (message Samples.blank) = false
  /\ message Samples.blank = JS.Str []
  /\ acceptable Samples.blank = true
  /\ compressMessage (zlib := Zlib.stored Zlib.kMaxLength) Samples.blank []
     = (inr Samples.blank, [])
  /\ exists this' table',
       save (zlib := Zlib.stored Zlib.kMaxLength) 1700000001 Samples.blank
         [] [] = (inr (this', table'), [])
       /\ message this' = JS.Str []
       /\ stored_message Samples.blank table' = Some (CBytes []).
Proof.
  assert (F : JS.truthy (message Samples.blank) = false) by reflexivity.
  assert (E : message Samples.blank = JS.Str []) by reflexivity.
  assert (A : acceptable Samples.blank = true) by reflexivity.
  assert (B : forall old,
             find (same_key (row Samples.blank)) [] = Some old ->
             exists b, get old "message" = CBytes b) by discriminate.
  pose proof (compressMessage_skips_falsy_message
                (Zlib.stored Zlib.kMaxLength) Samples.blank 1700000001
                [] [] F) as [C [_ [S _]]].
  split; [exact F|]. split; [exact E|]. split; [exact A|].
  split; [exact C | exact (S E A B)].
Defined.

(** C10 as stated fails for a message that is unset: nothing is
    persisted, the insert is refused and the table stays empty. *)
Lemma unset_message_is_not_persisted :
  message MoreSamples.unset = JS.undefined
  /\ compressMessage (zlib := Zlib.stored Zlib.kMaxLength)
       MoreSamples.unset []
     = (inr MoreSamples.unset, [])
  /\ save (zlib := Zlib.stored Zlib.kMaxLength) 1700000001
       MoreSamples.unset [] []
     = (inl (JS.ValidationError "message"
               "null value in a required column"), [])
  /\ insert entity 1700000001 (row MoreSamples.unset) []
     = (inl (JS.ValidationError "message"
               "null value in a required column"), []).
Proof. repeat split. Qed.

(** An empty [Buffer] is an object, hence truthy: the hook compresses
    it, to the stream of no data. *)
Lemma empty_buffer_is_compressed :
  compressMessage (zlib := Zlib.stored Zlib.kMaxLength)
    (Samples.notification (JS.Buf [])) []
  = (inr (Samples.notification (JS.Buf (Zlib.stream []))), [])
  /\ Zlib.stream [] = [x78; x01; x01; x00; x00; xff; xff;
                       x00; x00; x00; x01].
Proof. split; vm_compute; reflexivity. Qed.

End NotificationFacts.
(** ** Users: unique email and phone number *)

Module UserFacts.

Import User StoreFacts.

Lemma unique_columns_User :
  unique_columns entity = ["uuid"; "phoneNumber"; "email"].
Proof. reflexivity. Qed.

(** The unique cells of a user are written as given. *)
Lemma written_unique (now : Z) (u : t) (k : string) :
  In k ["uuid"; "phoneNumber"; "email"] ->
  get (write entity now (row u)) k = get (row u) k.
Proof.
  intros [<- | [<- | [<- | []]]]; unfold row;
    destruct (phoneNumber u); reflexivity.
Qed.

Lemma create_accepted (now : Z) (u : t) (users : Table) :
  check entity (row u) = None ->
  (forall k, In k ["uuid"; "phoneNumber"; "email"] ->
             taken k (row u) users = false) ->
  create now u users = (inr tt, users ++ [write entity now (row u)]).
Proof.
  intros Hc Hf. unfold create. apply insert_accepted; [exact Hc|].
  unfold conflict. rewrite unique_columns_User. cbn [find].
  rewrite !(taken_ext _ (write entity now (row u)) (row u))
    by (apply written_unique; cbn [In]; auto).
  rewrite !Hf by (cbn [In]; auto). reflexivity.
Qed.

(** A user whose value in the unique column [k] is held by a row of the
    table is refused, and the table stays as it was. *)
Lemma create_refused (now : Z) (u : t) (users : Table) (k : string) :
  check entity (row u) = None ->
  In k ["uuid"; "phoneNumber"; "email"] ->
  taken k (row u) users = true ->
  exists k', create now u users = (inl (JS.ConflictError k'), users).
Proof.
  intros Hc Hk Ht. unfold create, insert. rewrite Hc.
  destruct (conflict_some (unique_columns entity)
              (write entity now (row u)) users k) as [k' E].
  - rewrite unique_columns_User. exact Hk.
  - rewrite (taken_ext _ _ (row u)) by now apply written_unique.
    exact Ht.
  - exists k'. now rewrite E.
Qed.

(** C9.  Two users with the same email, or with the same phone number
    when both have one: once the first is created, the creation of the
    second fails with [ConflictError] and leaves the table of users
    untouched; and an accepted creation keeps both columns free of
    duplicates. *)
Theorem User_email_and_phoneNumber_are_unique (now1 now2 : Z)
    (u1 u2 : t) (users : Table) :
  check entity (row u1) = None ->
  check entity (row u2) = None ->
  (forall k, In k ["uuid"; "phoneNumber"; "email"] ->
             taken k (row u1) users = false) ->
  email u1 = email u2
  \/ (exists p, phoneNumber u1 = Some p /\ phoneNumber u2 = Some p) ->
  let users1 := users ++ [write entity now1 (row u1)] in
  create now1 u1 users = (inr tt, users1)
  /\ (exists k, create now2 u2 users1 = (inl (JS.ConflictError k), users1))
  /\ (forall k, In k ["phoneNumber"; "email"] ->
                distinct_on k users = true -> distinct_on k users1 = true).
Proof.
  intros C1 C2 Hfree Hsame users1.
  assert (A : create now1 u1 users = (inr tt, users1))
    by now apply create_accepted.
  split; [exact A|]. split.
  - destruct Hsame as [He | [p [P1 P2]]].
    + apply (create_refused now2 u2 users1 "email");
        [exact C2 | cbn [In]; auto |].
      unfold users1. rewrite taken_app, taken_one.
      rewrite (written_unique now1 u1 "email") by (cbn [In]; auto).
      unfold row at 1 2 3. cbn [get assoc String.eqb Ascii.eqb Bool.eqb].
      cbn. rewrite He, String.eqb_refl. apply orb_true_r.
    + apply (create_refused now2 u2 users1 "phoneNumber");
        [exact C2 | cbn [In]; auto |].
      unfold users1. rewrite taken_app, taken_one.
      rewrite (written_unique now1 u1 "phoneNumber") by (cbn [In]; auto).
      unfold row. rewrite P1, P2. cbn. rewrite String.eqb_refl.
      apply orb_true_r.
  - intros k Hk Hd. apply (insert_keeps_distinct entity now1 (row u1) users);
      [| exact Hd | exact A].
    rewrite unique_columns_User. cbn [In] in *. tauto.
Qed.

(** The statement above for two sign-ups with the address a@x.com into
    an empty table. *)
Lemma User_email_and_phoneNumber_are_unique_witness :
  check entity (row Samples.ann) = None
  /\ check entity (row Samples.ann_again) = None
  /\ (forall k, In k ["uuid"; "phoneNumber"; "email"] ->
                taken k (row Samples.ann) [] = false)
  /\ email Samples.ann = email Samples.ann_again
  /\ create 1700000001 Samples.ann []
     = (inr tt, [write entity 1700000001 (row Samples.ann)])
  /\ exists k,
       create 1700000002 Samples.ann_again
         [write entity 1700000001 (row Samples.ann)]
       = (inl (JS.ConflictError k),
          [write entity 1700000001 (row Samples.ann)]).
Proof.
  assert (C1 : check entity (row Samples.ann) = None) by reflexivity.
  assert (C2 : check entity (row Samples.ann_again) = None)
    by reflexivity.
  assert (F : forall k, In k ["uuid"; "phoneNumber"; "email"] ->
                        taken k (row Samples.ann) [] = false)
    by (intros k _; unfold taken; cbn [existsb]; apply andb_false_r).
  assert (E : email Samples.ann = email Samples.ann_again)
    by reflexivity.
  pose proof (User_email_and_phoneNumber_are_unique 1700000001 1700000002
                Samples.ann Samples.ann_again [] C1 C2 F (or_introl E))
    as [A [B _]].
  split; [exact C1|]. split; [exact C2|]. split; [exact F|].
  split; [exact E|]. split; [exact A | exact B].
Defined.

End UserFacts.

(** ** Interactions: the four targets *)

Module MediaInteractionFacts.

Import MediaInteraction StoreFacts.

Lemma unique_columns_MediaInteraction : unique_columns entity = ["uuid"].
Proof. reflexivity. Qed.

Lemma interaction_row_is_checked (this : t) :
  (String.length (interactionType this) <= 50)%nat ->
  check entity (row this) = None.
Proof.
  intros H. unfold row.
  destruct (user this), (music this), (photo this), (video this),
    (playlist this);
    unfold check, entity, extends, BaseUUIDEntity.entity;
    cbn -[N.leb N.of_nat chars];
    (replace (N.of_nat (chars (interactionType this)) <=? 50)
       with true by (symmetry; now apply (short_string_fits _ 50)));
    reflexivity.
Qed.

Lemma written_targets (now : Z) (this : t) (k : string) :
  In k ["uuid"; "music"; "photo"; "video"; "playlist"] ->
  get (write entity now (row this)) k = get (row this) k.
Proof.
  intros [<- | [<- | [<- | [<- | [<- | []]]]]]; reflexivity.
Qed.

(** C6, as the code has it.  The four references are four independent
    nullable relations and the class validates nothing: an interaction
    with a fresh key whose [interactionType] fits its column is inserted
    whatever its references hold -- none, one or several -- and they are
    stored as given. *)
Theorem interaction_targets_are_not_validated (now : Z) (this : t)
    (table : Table) :
  (String.length (interactionType this) <= 50)%nat ->
  taken "uuid" (row this) table = false ->
  insert entity now (row this) table
  = (inr tt, table ++ [write entity now (row this)])
  /\ (forall k, In k ["music"; "photo"; "video"; "playlist"] ->
                get (write entity now (row this)) k = get (row this) k).
Proof.
  intros Hlen Hfree. split.
  - apply insert_accepted; [now apply interaction_row_is_checked|].
    unfold conflict. rewrite unique_columns_MediaInteraction. cbn [find].
    rewrite (taken_ext _ _ (row this))
      by (apply written_targets; cbn [In]; auto).
    now rewrite Hfree.
  - intros k Hk. apply written_targets. cbn [In] in *. tauto.
Qed.

(** The statement above at an interaction that references a music track
    and a photo. *)
Lemma interaction_targets_are_not_validated_witness :
  (String.length (interactionType Samples.both) <= 50)%nat
  /\ taken "uuid" (row Samples.both) [] = false
  /\ insert entity 1700000001 (row Samples.both) []
     = (inr tt, [write entity 1700000001 (row Samples.both)])
  /\ get (write entity 1700000001 (row Samples.both)) "music"
     = CStr "m-1"
  /\ get (write entity 1700000001 (row Samples.both)) "photo"
     = CStr "p-1".
Proof.
  assert (L : (String.length (interactionType Samples.both) <= 50)%nat)
    by (vm_compute; lia).
  assert (F : taken "uuid" (row Samples.both) [] = false) by reflexivity.
  pose proof (interaction_targets_are_not_validated 1700000001
                Samples.both [] L F) as [A B].
  split; [exact L|]. split; [exact F|]. split; [exact A|].
  split; [exact (B "music" (or_introl eq_refl))
         | exact (B "photo" (or_intror (or_introl eq_refl)))].
Defined.

(** C6 as stated fails: an interaction that references both a music
    track and a photo is inserted, not rejected. *)
Lemma interaction_with_two_targets_is_accepted :
  targets Samples.both = 2%nat
  /\ insert entity 1700000001 (row Samples.both) []
     = (inr tt,
        [[("uuid", CStr "i-1"); ("createdAt", CTime 1700000001);
          ("updatedAt", CTime 1700000001);
          ("interactionType", CStr "WATCHED");
          ("timestamp", CTime 1700000000); ("user", CStr "u-1");
          ("music", CStr "m-1"); ("photo", CStr "p-1");
          ("video", NULL); ("playlist", NULL)]]).
Proof. split; vm_compute; reflexivity. Qed.

End MediaInteractionFacts.

(** ** Notification status *)

Module StatusFacts.

Import Async Notification StoreFacts NotificationFacts.

Lemma member_In (values : list string) (s : string) :
  In s values -> member values (Some s) = true.
Proof.
  intros H. cbn [member]. apply existsb_exists. exists s.
  split; [exact H | apply String.eqb_refl].
Qed.

Lemma assignable_set_status (this : t) (s : string) :
  In s ["pending"; "sent"; "failed"] ->
  assignable this = true -> assignable (set_status s this) = true.
Proof.
  intros I. unfold assignable, valid.
  cbn [set_status channel message status subject].
  rewrite !andb_true_iff. intros [[[C _] F] M].
  now rewrite C, F, M, (member_In _ s I).
Qed.

(** C5, as the code has it.  [status] is an enum column over pending,
    sent and failed with default pending, and nothing else: the class
    has no [markSent] or [markFailed] and no guard on the old value.
    For a stored notification, whatever its status, assigning any of the
    three values and saving resolves, and the stored row then holds the
    new value.  [deliveredAt] and [errorLog] are columns of their own: the
    save leaves in each what the stored row held, unless the object
    assigns a value to it.  (The object is one that an update takes:
    what it assigns is valid for its column.) *)
Theorem status_assignment_is_not_guarded (zlib : Zlib.Codec) (this : t)
    (s : string) (now : Z) (old : Row) (table : Table) (log : Console) :
  assignable this = true ->
  find (same_key (row this)) table = Some old ->
  In s ["pending"; "sent"; "failed"] ->
  exists v table' log',
    save now (set_status s this) table log
    = (inr (set_message v (set_status s this), table'), log')
    /\ option_map (fun r => (get r "status", get r "deliveredAt",
                             get r "errorLog"))
         (find (same_key (row this)) table')
       = Some (CStr s,
               match deliveredAt this with
               | Some d => CTime d
               | None => get old "deliveredAt"
               end,
               match errorLog this with
               | Some e => CStr e
               | None => get old "errorLog"
               end).
Proof.
  intros A F I.
  pose proof (assignable_set_status this s I A) as A'.
  destruct (save_stored now (set_status s this) old table log A' F)
    as [v [log' [table' [r' [S [F' [_ [_ [G _]]]]]]]]].
  exists v, table', log'. split; [exact S|].
  change (same_key (row this)) with (same_key (row (set_status s this))).
  rewrite F'. cbn [option_map].
  rewrite (G "status"
             (Column enum [Enum ["pending"; "sent"; "failed"];
                           DefaultTo (Lit (CStr "pending"))]) eq_refl)
    by discriminate.
  rewrite (G "deliveredAt" (Column timestamp [Nullable true]) eq_refl)
    by discriminate.
  rewrite (G "errorLog" (Column text [Nullable true]) eq_refl)
    by discriminate.
  rewrite !assoc_row. unfold fields.
  cbn [assoc String.eqb Ascii.eqb Bool.eqb set_status status deliveredAt
       errorLog option_map].
  unfold settled.
  assert (E : forall held c, (if cell_eqb held c then held else c) = c).
  { intros held c. destruct (cell_eqb held c) eqn:X; [|reflexivity].
    now apply cell_eqb_eq. }
  destruct (deliveredAt this), (errorLog this); cbn [option_map stored_as];
    now rewrite ?E.
Qed.

(** The statement above at a notification that is stored as sent, with
    the time of its delivery: an object with the same key that assigns
    neither [deliveredAt] nor [errorLog] is saved as failed. *)
Lemma status_assignment_is_not_guarded_witness :
  assignable Samples.hello = true
  /\ find (same_key (row Samples.hello)) Samples.outbox
     = Some (write entity 1700000060 (row Samples.delivered))
  /\ In "failed" ["pending"; "sent"; "failed"]
  /\ exists v table' log',
       save (zlib := Zlib.stored Zlib.kMaxLength) 1700000090
         (set_status "failed" Samples.hello) Samples.outbox []
       = (inr (set_message v (set_status "failed" Samples.hello),
               table'), log')
       /\ option_map (fun r => (get r "status", get r "deliveredAt",
                                get r "errorLog"))
            (find (same_key (row Samples.hello)) table')
          = Some (CStr "failed", CTime 1700000050, NULL).
Proof.
  assert (A : assignable Samples.hello = true) by reflexivity.
  assert (F : find (same_key (row Samples.hello)) Samples.outbox
              = Some (write entity 1700000060 (row Samples.delivered)))
    by reflexivity.
  assert (I : In "failed" ["pending"; "sent"; "failed"])
    by (cbn [In]; auto).
  split; [exact A|]. split; [exact F|]. split; [exact I|].
  exact (status_assignment_is_not_guarded (Zlib.stored Zlib.kMaxLength)
           Samples.hello "failed" 1700000090 _ Samples.outbox [] A F I).
Defined.

(** C5 as stated fails: a notification stored as sent, with its
    [deliveredAt], is saved again with status failed and an error log;
    the save resolves and the stored row is now failed. *)
Lemma sent_notification_becomes_failed :
  exists n1 t1 n2 t2,
    save (zlib := Zlib.stored Zlib.kMaxLength) 1700000060
      Samples.delivered [] [] = (inr (n1, t1), [])
    /\ option_map (fun r => (get r "status", get r "deliveredAt"))
         (find (same_key (row n1)) t1)
       = Some (CStr "sent", CTime 1700000050)
    /\ save (zlib := Zlib.stored Zlib.kMaxLength) 1700000090
         (set_errorLog (Some "gateway timeout") (set_status "failed" n1))
         t1 [] = (inr (n2, t2), [])
    /\ option_map (fun r => (get r "status", get r "errorLog"))
         (find (same_key (row n1)) t2)
       = Some (CStr "failed", CStr "gateway timeout").
Proof.
  do 4 eexists.
  split; [vm_compute; reflexivity|].
  split; [vm_compute; reflexivity|].
  split; vm_compute; reflexivity.
Qed.

(** A notification saved without a status is stored as pending. *)
Lemma status_defaults_to_pending (now : Z) (this : t) :
  status this = None ->
  get (write entity now (row this)) "status" = CStr "pending".
Proof.
  intros H.
  rewrite (get_write entity now (row this) "status"
             (Column enum [Enum ["pending"; "sent"; "failed"];
                           DefaultTo (Lit (CStr "pending"))]) eq_refl).
  rewrite get_row. unfold fields.
  cbn [assoc String.eqb Ascii.eqb Bool.eqb]. now rewrite H.
Qed.

(** A value outside the enum is refused by the column. *)
Lemma status_outside_enum_is_refused (this : t) (s : string) :
  member ["pending"; "sent"; "failed"] (Some s) = false ->
  check entity (row (set_status s this)) <> None.
Proof.
  intros H C. apply notification_row_is_checked in C.
  unfold acceptable, valid in C.
  cbn [set_status status] in C. rewrite H in C.
  rewrite andb_false_r in C. discriminate.
Qed.

End StatusFacts.
(** ** Relations of the media classes to Playlist *)

Module RelationFacts.

(** C7 on the code.  In each media class the [playlist] property is a
    nullable many-to-one relation declared with the type [Playlist], as
    its comment says, but the target given to the decorator is the class
    itself: the relation leads from Music to Music, from Photo to Photo,
    from Video to Video.  [Playlist] names these properties as the
    inverse sides of its lists, and they do not lead back to it. *)
Theorem playlist_relation_targets_its_own_class :
  relation Music.entity "playlist"
  = Some (many_to_one "Music" (Some "playlist") (Some true) None "Playlist")
  /\ relation Photo.entity "playlist"
     = Some (many_to_one "Photo" (Some "playlist") (Some true) None
               "Playlist")
  /\ relation Video.entity "playlist"
     = Some (many_to_one "Video" (Some "playlist") (Some true) None
               "Playlist")
  /\ relation Photo.entity_flat "playlist"
     = relation Photo.entity "playlist"
  /\ relation Video.entity_flat "playlist"
     = relation Video.entity "playlist"
  /\ map (fun E => option_map (targets_declared)
                     (relation E "playlist"))
       [Music.entity; Photo.entity; Video.entity]
     = [Some false; Some false; Some false]
  /\ map (fun k => option_map (mutual registry "Playlist")
                     (relation Playlist.entity k))
       ["music"; "photos"; "videos"]
     = [Some false; Some false; Some false].
Proof. repeat split. Qed.

End RelationFacts.

(** ** The media asset columns *)

Module MediaFacts.





(** A photo that sets none of the columns with a default. *)
Lemma media_asset_defaults :
  exists r,
    insert Photo.entity 1700000001 Samples.plain_photo [] = (inr tt, [r])
    /\ map (get r) ["status"; "version"; "viewCount"; "downloadCount";
                    "drmProtected"; "downloadAllowed"; "streamingAllowed"]
       = [CStr "active"; CInt 1; CInt 0; CInt 0; CBool false; CBool false;
          CBool true].
Proof. eexists. split; vm_compute; reflexivity. Qed.

(** Music extends [BaseUUIDEntity] and lists its own columns: of the
    media asset attributes it has [url], [title] and [format] only.  The
    earlier declarations of Photo and Video are in the same state. *)
Lemma Music_lacks_the_media_asset_columns :
  carries Music.entity MediaAsset = false
  /\ filter (fun kq => meets Music.entity (fst kq) (snd kq)) MediaAsset
     = [("url", Required); ("title", Required); ("format", Required)]
  /\ column Music.entity "status" = None
  /\ carries Photo.entity_flat MediaAsset = false
  /\ carries Video.entity_flat MediaAsset = false.
Proof. repeat split. Qed.

End MediaFacts.

(** ** More about the two methods of Notification *)

Module HookFacts.

Import Async Notification StoreFacts NotificationFacts StatusFacts.

(** X1.  [compressMessage] never rejects, whatever the message holds and
    whatever zlib does: it resolves with the object changed at most in
    [message], it adds at most one line to the console and removes none,
    a truthy message stays truthy, and a falsy one is left as it is. *)
Theorem compressMessage_never_rejects (zlib : Zlib.Codec) (this : t)
    (log : Console) :
  exists v entries,
    compressMessage this log = (inr (set_message v this), log ++ entries)
    /\ (List.length entries <= 1)%nat
    /\ JS.truthy v = JS.truthy (message this)
    /\ (JS.truthy (message this) = false
        -> v = message this /\ entries = []).
Proof.
  destruct this as [u st us ch msg sta se de er su].
  unfold compressMessage. cbn [message].
  destruct msg as [| | [|c s] | b]; cbn [JS.truthy];
    unfold try_catch, bind, await, deflateAsync, await, ret,
      console_error; cbn [JS.toString].
  - exists JS.undefined, []. rewrite app_nil_r. cbn. auto.
  - exists JS.null, []. rewrite app_nil_r. cbn. auto.
  - exists (JS.Str []), []. rewrite app_nil_r. cbn. auto.
  - destruct (Zlib.deflate _) as [e|c'].
    + exists (JS.Str (c :: s)), [compression_error e].
      cbn. repeat split; auto; discriminate.
    + exists (JS.Buf c'), []. rewrite app_nil_r.
      cbn. repeat split; auto; discriminate.
  - destruct (Zlib.deflate _) as [e|c'].
    + exists (JS.Buf b), [compression_error e].
      cbn. repeat split; auto; discriminate.
    + exists (JS.Buf c'), []. rewrite app_nil_r.
      cbn. repeat split; auto; discriminate.
Qed.

(** The statement above at the empty string, seen through its last part:
    the message is falsy, so the hook changes and logs nothing. *)
Lemma compressMessage_never_rejects_witness :
  JS.truthy (message Samples.blank) = false
  /\ exists v entries,
       compressMessage (zlib := Zlib.stored Zlib.kMaxLength) Samples.blank []
       = (inr (set_message v Samples.blank), [] ++ entries)
       /\ v = message Samples.blank /\ entries = [].
Proof.
  assert (F : JS.truthy (message Samples.blank) = false) by reflexivity.
  split; [exact F|].
  destruct (compressMessage_never_rejects (Zlib.stored Zlib.kMaxLength)
              Samples.blank []) as [v [entries [H [_ [_ K]]]]].
  exists v, entries. split; [exact H | exact (K F)].
Defined.

(** X2.  [getMessage] rejects exactly when the message is [undefined] or
    [null]: [Buffer.from] stands outside the [try], so its [TypeError]
    reaches the caller and nothing is logged.  On a string or a buffer it
    always resolves, it adds at most one line to the console, and whenever
    it adds one the string it resolves with is empty. *)
Theorem getMessage_rejects_only_unset (zlib : Zlib.Codec) (this : t)
    (log : Console) :
  match message this with
  | JS.undefined | JS.null =>
    exists m, getMessage this log = (inl (JS.TypeError m), log)
  | JS.Str _ | JS.Buf _ =>
    exists s entries,
      getMessage this log = (inr s, log ++ entries)
      /\ (List.length entries <= 1)%nat
      /\ (entries <> [] -> s = [])
  end.
Proof.
  unfold getMessage, try_catch, bind, await, unzipAsync, await, ret,
    console_error.
  destruct (message this) as [| | s | b]; cbn [JS.Buffer_from].
  - eexists. reflexivity.
  - eexists. reflexivity.
  - destruct (Zlib.unzip _) as [e|d].
    + exists [], [decompression_error e]. cbn. auto.
    + exists (Utf8.decode d), []. rewrite app_nil_r. cbn.
      repeat split; auto. intros H. now elim H.
  - destruct (Zlib.unzip _) as [e|d].
    + exists [], [decompression_error e]. cbn. auto.
    + exists (Utf8.decode d), []. rewrite app_nil_r. cbn.
      repeat split; auto. intros H. now elim H.
Qed.

(** X3.  A non-empty string assigned as the message (the hook accepts it
    as it accepts a buffer) comes back from [getMessage] after the hook,
    with every lone surrogate replaced by U+FFFD: a well-formed string
    comes back unchanged. *)
Theorem string_message_roundtrip (zlib : Zlib.Codec) (this : t)
    (s : list N) (c : list byte) (log : Console) :
  Zlib.Lawful zlib ->
  message this = JS.Str s ->
  s <> [] ->
  Zlib.deflate (Utf8.encode s) = inr c ->
  bind (compressMessage this) getMessage log
  = (inr (Utf8.decode (Utf8.encode s)), log)
  /\ (Utf8.well_formed s -> Utf8.decode (Utf8.encode s) = s).
Proof.
  intros Hlaw Hm Hs Hc. split; [|apply Utf8Facts.decode_encode].
  unfold bind.
  rewrite (compressMessage_ok this s c log);
    [| rewrite Hm; destruct s; [now elim Hs | reflexivity]
     | now rewrite Hm | exact Hc].
  now rewrite (getMessage_ok _ c (Utf8.encode s));
    [| reflexivity | apply Hlaw].
Qed.

(** The statement above at the string "Hello". *)
Lemma string_message_roundtrip_witness :
  Zlib.Lawful (Zlib.stored Zlib.kMaxLength)
  /\ message MoreSamples.hello_string = JS.Str (Utf8.of_string "Hello")
  /\ Utf8.of_string "Hello" <> []
  /\ Zlib.deflate (Codec := Zlib.stored Zlib.kMaxLength)
       (Utf8.encode (Utf8.of_string "Hello"))
     = inr (Zlib.stream Samples.Hello)
  /\ bind (compressMessage (zlib := Zlib.stored Zlib.kMaxLength)
             MoreSamples.hello_string)
       (getMessage (zlib := Zlib.stored Zlib.kMaxLength)) []
     = (inr (Utf8.of_string "Hello"), []).
Proof.
  assert (L : Zlib.Lawful (Zlib.stored Zlib.kMaxLength))
    by apply ZlibFacts.stored_lawful.
  assert (M : message MoreSamples.hello_string
              = JS.Str (Utf8.of_string "Hello")) by reflexivity.
  assert (S : Utf8.of_string "Hello" <> []) by discriminate.
  assert (D : Zlib.deflate (Codec := Zlib.stored Zlib.kMaxLength)
                (Utf8.encode (Utf8.of_string "Hello"))
              = inr (Zlib.stream Samples.Hello)) by (vm_compute; reflexivity).
  split; [exact L|]. split; [exact M|]. split; [exact S|]. split; [exact D|].
  exact (proj1 (string_message_roundtrip (Zlib.stored Zlib.kMaxLength)
                  MoreSamples.hello_string (Utf8.of_string "Hello")
                  (Zlib.stream Samples.Hello) [] L M S D)).
Defined.

(** X4.  Two runs of the hook, as on an insert followed by an update, do
    not cancel: [getMessage] then resolves with the bytes of the first
    compression read as UTF-8, for every codec that honours the contract
    of zlib. *)
Theorem hook_twice_then_getMessage (zlib : Zlib.Codec) (this : t)
    (m c c' : list byte) (log : Console) :
  Zlib.Lawful zlib ->
  message this = JS.Buf m ->
  Zlib.deflate (Utf8.encode (Utf8.decode m)) = inr c ->
  Zlib.deflate (Utf8.encode (Utf8.decode c)) = inr c' ->
  bind (compressMessage this)
    (fun this' => bind (compressMessage this') getMessage) log
  = (inr (Utf8.decode c), log)
  /\ bind (compressMessage this)
       (fun this' => compressMessage this') log
     = (inr (set_message (JS.Buf c') this), log).
Proof.
  intros Hlaw Hm Hc Hc'. split.
  - unfold bind at 1.
    rewrite (compressMessage_ok this (Utf8.decode m) c log);
      [| now rewrite Hm | now rewrite Hm | exact Hc].
    now apply getMessage_after_hook with (c := c').
  - unfold bind.
    rewrite (compressMessage_ok this (Utf8.decode m) c log);
      [| now rewrite Hm | now rewrite Hm | exact Hc].
    now rewrite (compressMessage_ok _ (Utf8.decode c) c' log).
Qed.

(** The statement above at the message "Hello". *)
Lemma hook_twice_then_getMessage_witness :
  Zlib.Lawful (Zlib.stored Zlib.kMaxLength)
  /\ message Samples.hello = JS.Buf Samples.Hello
  /\ Zlib.deflate (Codec := Zlib.stored Zlib.kMaxLength)
       (Utf8.encode (Utf8.decode Samples.Hello))
     = inr (Zlib.stream Samples.Hello)
  /\ Zlib.deflate (Codec := Zlib.stored Zlib.kMaxLength)
       (Utf8.encode (Utf8.decode (Zlib.stream Samples.Hello)))
     = inr (Zlib.stream
              (Utf8.encode (Utf8.decode (Zlib.stream Samples.Hello))))
  /\ bind (compressMessage (zlib := Zlib.stored Zlib.kMaxLength)
             Samples.hello)
       (fun this' =>
          bind (compressMessage (zlib := Zlib.stored Zlib.kMaxLength) this')
            (getMessage (zlib := Zlib.stored Zlib.kMaxLength))) []
     = (inr (Utf8.decode (Zlib.stream Samples.Hello)), []).
Proof.
  assert (L : Zlib.Lawful (Zlib.stored Zlib.kMaxLength))
    by apply ZlibFacts.stored_lawful.
  assert (M : message Samples.hello = JS.Buf Samples.Hello) by reflexivity.
  assert (D : Zlib.deflate (Codec := Zlib.stored Zlib.kMaxLength)
                (Utf8.encode (Utf8.decode Samples.Hello))
              = inr (Zlib.stream Samples.Hello)) by (vm_compute; reflexivity).
  assert (D' : Zlib.deflate (Codec := Zlib.stored Zlib.kMaxLength)
                 (Utf8.encode (Utf8.decode (Zlib.stream Samples.Hello)))
               = inr (Zlib.stream
                        (Utf8.encode
                           (Utf8.decode (Zlib.stream Samples.Hello)))))
    by (vm_compute; reflexivity).
  split; [exact L|]. split; [exact M|]. split; [exact D|].
  split; [exact D'|].
  exact (proj1 (hook_twice_then_getMessage (Zlib.stored Zlib.kMaxLength)
                  Samples.hello Samples.Hello _ _ [] L M D D')).
Defined.

End HookFacts.

(** ** Saving a notification *)

Module SaveFacts.

Import Async Notification StoreFacts NotificationFacts StatusFacts.



(** X6.  The first save of a notification with a buffer as message, when
    the compression succeeds: the caller's object now holds the compressed
    bytes, the stored row holds the same bytes, nothing is logged, and
    [getMessage] on the object resolves with the text of the message.
    (The object comes back with its [channel] and [status] as they were
    written.) *)
Theorem first_save_stores_the_compressed_message (zlib : Zlib.Codec)
    (now : Z) (this : t) (m c : list byte) (table : Table)
    (log : Console) :
  Zlib.Lawful zlib ->
  message this = JS.Buf m ->
  Zlib.deflate (Utf8.encode (Utf8.decode m)) = inr c ->
  acceptable this = true ->
  existsb (same_key (row this)) table = false ->
  let that := set_message (JS.Buf c) this in
  exists table',
    save now this table log
    = (inr (returned (write entity now (row that)) that, table'), log)
    /\ stored_message this table' = Some (CBytes c)
    /\ getMessage (returned (write entity now (row that)) that) log
       = (inr (Utf8.decode m), log).
Proof.
  intros Hlaw Hm Hc Ha Hn that.
  assert (Hh : compressMessage this log = (inr that, log))
    by (apply (compressMessage_ok this (Utf8.decode m) c log);
        [now rewrite Hm | now rewrite Hm | exact Hc]).
  assert (F : find (same_key (row this)) table = None).
  { destruct (find (same_key (row this)) table) as [x|] eqn:F;
      [|reflexivity].
    apply find_some_existsb in F. congruence. }
  assert (Ha' : acceptable that = true)
    by (apply acceptable_set_message; [reflexivity | exact Ha]).
  exists (table ++ [write entity now (row that)]).
  split; [|split].
  - rewrite (save_unfold now this that table log log (pending_new _ _ F) Hh).
    now rewrite (written_new now that table Ha' F).
  - unfold stored_message.
    rewrite find_app_fresh;
      [| exact Hn | unfold same_key; apply cell_eqb_refl].
    cbn [option_map]. f_equal.
    rewrite (get_write entity now (row that) "message" (Column bytea [])
               eq_refl).
    now rewrite get_row.
  - rewrite (getMessage_ok _ c (Utf8.encode (Utf8.decode m)));
      [| reflexivity | now apply Hlaw].
    now rewrite Utf8Facts.decode_encode_decode.
Qed.

(** The statement above at "Hello" and an empty table. *)
Lemma first_save_stores_the_compressed_message_witness :
  Zlib.Lawful (Zlib.stored Zlib.kMaxLength)
  /\ message Samples.hello = JS.Buf Samples.Hello
  /\ Zlib.deflate (Codec := Zlib.stored Zlib.kMaxLength)
       (Utf8.encode (Utf8.decode Samples.Hello))
     = inr (Zlib.stream Samples.Hello)
  /\ acceptable Samples.hello = true
  /\ existsb (same_key (row Samples.hello)) [] = false
  /\ exists table',
       save (zlib := Zlib.stored Zlib.kMaxLength) 1700000001
         Samples.hello [] []
       = (inr (set_status "pending"
                 (set_message (JS.Buf (Zlib.stream Samples.Hello))
                    Samples.hello), table'), [])
       /\ stored_message Samples.hello table'
          = Some (CBytes (Zlib.stream Samples.Hello))
       /\ getMessage (zlib := Zlib.stored Zlib.kMaxLength)
            (set_status "pending"
               (set_message (JS.Buf (Zlib.stream Samples.Hello))
                  Samples.hello)) []
          = (inr (Utf8.decode Samples.Hello), []).
Proof.
  assert (L : Zlib.Lawful (Zlib.stored Zlib.kMaxLength))
    by apply ZlibFacts.stored_lawful.
  assert (M : message Samples.hello = JS.Buf Samples.Hello) by reflexivity.
  assert (D : Zlib.deflate (Codec := Zlib.stored Zlib.kMaxLength)
                (Utf8.encode (Utf8.decode Samples.Hello))
              = inr (Zlib.stream Samples.Hello)) by (vm_compute; reflexivity).
  assert (A : acceptable Samples.hello = true) by reflexivity.
  assert (F : existsb (same_key (row Samples.hello)) [] = false)
    by reflexivity.
  split; [exact L|]. split; [exact M|]. split; [exact D|].
  split; [exact A|]. split; [exact F|].
  exact (first_save_stores_the_compressed_message
           (Zlib.stored Zlib.kMaxLength) 1700000001 Samples.hello
           Samples.Hello (Zlib.stream Samples.Hello) [] [] L M D A F).
Defined.

(** X7.  A notification that is saved for the first time with neither
    [channel] nor [status] assigned is stored with the channel WhatsApp
    and the status pending, and with both dates at the time of the
    write. *)
Theorem first_save_applies_the_defaults (zlib : Zlib.Codec) (now : Z)
    (this : t) (table : Table) (log : Console) :
  acceptable this = true ->
  existsb (same_key (row this)) table = false ->
  channel this = None ->
  status this = None ->
  exists this' table' log',
    save now this table log = (inr (this', table'), log')
    /\ option_map (fun r => (get r "channel", get r "status",
                             get r "createdAt", get r "updatedAt"))
         (find (same_key (row this)) table')
       = Some (CStr "WhatsApp", CStr "pending", CTime now, CTime now).
Proof.
  intros Ha Hn Hc Hs.
  assert (F : find (same_key (row this)) table = None).
  { destruct (find (same_key (row this)) table) as [x|] eqn:F;
      [|reflexivity].
    apply find_some_existsb in F. congruence. }
  destruct (save_new now this table log Ha F) as [v [log' [_ [_ S]]]].
  eexists _, _, log'. split; [exact S|].
  rewrite find_app_fresh;
    [| exact Hn | unfold same_key; apply cell_eqb_refl].
  cbn [option_map]. set (that := set_message v this).
  rewrite (get_write entity now (row that) "channel"
             (Column enum [Enum ["email"; "SMS"; "WhatsApp"];
                           DefaultTo (Lit (CStr "WhatsApp"))]) eq_refl).
  rewrite (get_write entity now (row that) "status"
             (Column enum [Enum ["pending"; "sent"; "failed"];
                           DefaultTo (Lit (CStr "pending"))]) eq_refl).
  rewrite (get_write entity now (row that) "createdAt"
             (CreateDateColumn timestamp [DefaultTo CURRENT_TIMESTAMP])
             eq_refl).
  rewrite (get_write entity now (row that) "updatedAt"
             (UpdateDateColumn timestamp
                [DefaultTo CURRENT_TIMESTAMP; OnUpdate "CURRENT_TIMESTAMP"])
             eq_refl).
  rewrite !get_row. unfold that, fields.
  cbn [assoc String.eqb Ascii.eqb Bool.eqb set_message channel status].
  rewrite Hc, Hs. reflexivity.
Qed.

(** The statement above at a notification with neither assigned. *)
Lemma first_save_applies_the_defaults_witness :
  acceptable MoreSamples.bare = true
  /\ existsb (same_key (row MoreSamples.bare)) Samples.outbox = false
  /\ channel MoreSamples.bare = None
  /\ status MoreSamples.bare = None
  /\ exists this' table' log',
       save (zlib := Zlib.stored Zlib.kMaxLength) 1700000100
         MoreSamples.bare Samples.outbox []
       = (inr (this', table'), log')
       /\ option_map (fun r => (get r "channel", get r "status",
                                get r "createdAt", get r "updatedAt"))
            (find (same_key (row MoreSamples.bare)) table')
          = Some (CStr "WhatsApp", CStr "pending", CTime 1700000100,
                  CTime 1700000100).
Proof.
  assert (A : acceptable MoreSamples.bare = true) by reflexivity.
  assert (F : existsb (same_key (row MoreSamples.bare)) Samples.outbox
              = false) by reflexivity.
  assert (C : channel MoreSamples.bare = None) by reflexivity.
  assert (S : status MoreSamples.bare = None) by reflexivity.
  split; [exact A|]. split; [exact F|]. split; [exact C|].
  split; [exact S|].
  exact (first_save_applies_the_defaults (Zlib.stored Zlib.kMaxLength)
           1700000100 MoreSamples.bare Samples.outbox [] A F C S).
Defined.

(** X8.  Saving a notification that is already stored adds no row and
    keeps the [createdAt] of its row.  When no assigned property differs
    from the stored row, the save is idle: no hook runs, nothing is
    logged or written, and [updatedAt] stays.  When a property other than
    the message differs, the row is written and its [updatedAt] is the
    time of the write. *)
Theorem later_save_keeps_createdAt (zlib : Zlib.Codec) (now : Z)
    (this : t) (old : Row) (table : Table) (log : Console) :
  assignable this = true ->
  find (same_key (row this)) table = Some old ->
  exists this' table' log',
    save now this table log = (inr (this', table'), log')
    /\ List.length table' = List.length table
    /\ option_map (fun r => get r "createdAt")
         (find (same_key (row this)) table')
       = Some (get old "createdAt")
    /\ (changes (row this) old = [] ->
        this' = this /\ table' = table /\ log' = log)
    /\ ((exists k c, In (k, c) (changes (row this) old) /\ k <> "message") ->
        option_map (fun r => get r "updatedAt")
          (find (same_key (row this)) table')
        = Some (CTime now)).
Proof.
  intros A F.
  destruct (save_stored now this old table log A F)
    as [v [log' [table' [r' [S [F' [L [_ [G [I [_ U]]]]]]]]]]].
  exists (set_message v this), table', log'.
  split; [exact S|]. split; [exact L|]. rewrite F'. cbn [option_map].
  split; [|split].
  - rewrite (G "createdAt"
               (CreateDateColumn timestamp [DefaultTo CURRENT_TIMESTAMP])
               eq_refl) by discriminate.
    now rewrite assoc_row.
  - intros C. destruct (I C) as [-> [-> ->]].
    now rewrite set_message_same.
  - intros X. now rewrite (U X).
Qed.

(** The statement above at the delivered notification, saved as failed a
    minute after it was stored. *)
Lemma later_save_keeps_createdAt_witness :
  assignable (set_status "failed" Samples.delivered) = true
  /\ find (same_key (row (set_status "failed" Samples.delivered)))
       Samples.outbox
     = Some (write entity 1700000060 (row Samples.delivered))
  /\ In ("status", CStr "failed")
       (changes (row (set_status "failed" Samples.delivered))
          (write entity 1700000060 (row Samples.delivered)))
  /\ exists this' table' log',
       save (zlib := Zlib.stored Zlib.kMaxLength) 1700000120
         (set_status "failed" Samples.delivered) Samples.outbox []
       = (inr (this', table'), log')
       /\ List.length table' = 1%nat
       /\ option_map (fun r => get r "createdAt")
            (find (same_key (row Samples.delivered)) table')
          = Some (CTime 1700000060)
       /\ option_map (fun r => get r "updatedAt")
            (find (same_key (row Samples.delivered)) table')
          = Some (CTime 1700000120).
Proof.
  assert (A : assignable (set_status "failed" Samples.delivered) = true)
    by reflexivity.
  assert (F : find (same_key (row (set_status "failed" Samples.delivered)))
                Samples.outbox
              = Some (write entity 1700000060 (row Samples.delivered)))
    by reflexivity.
  assert (I : In ("status", CStr "failed")
                (changes (row (set_status "failed" Samples.delivered))
                   (write entity 1700000060 (row Samples.delivered))))
    by (vm_compute; auto).
  split; [exact A|]. split; [exact F|]. split; [exact I|].
  destruct (later_save_keeps_createdAt (Zlib.stored Zlib.kMaxLength)
              1700000120 (set_status "failed" Samples.delivered) _
              Samples.outbox [] A F)
    as [this' [table' [log' [S [L [C [_ U]]]]]]].
  exists this', table', log'.
  split; [exact S|]. split; [exact L|]. split; [exact C|].
  apply U. exists "status", (CStr "failed"). split; [exact I | discriminate].
Defined.

(** X9.  An update with a message that is unset.  When [message] was
    never assigned, the hook skips it and the update leaves the column
    alone: the save resolves, logs nothing, and the stored bytes are the
    ones that were there.  When [message] holds [null] the update writes
    it, and the required column refuses the write. *)
Theorem update_with_an_unset_message (zlib : Zlib.Codec) (now : Z)
    (this : t) (old : Row) (table : Table) (log : Console) :
  valid this = true ->
  find (same_key (row this)) table = Some old ->
  (message this = JS.undefined ->
   exists table',
     save now this table log = (inr (this, table'), log)
     /\ stored_message this table' = Some (get old "message"))
  /\ (message this = JS.null ->
      get old "message" <> NULL ->
      exists e, save now this table log = (inl e, log)).
Proof.
  intros V F. split.
  - intros M.
    assert (A : assignable this = true)
      by (unfold assignable; now rewrite V, M).
    destruct (save_stored now this old table log A F)
      as [v [log' [table' [r' [S [F' [_ [_ [_ [_ [T _]]]]]]]]]]].
    destruct T as [-> [-> T]]; [now rewrite M|].
    exists table'. rewrite set_message_same in S. split; [exact S|].
    unfold stored_message. rewrite F'. cbn [option_map]. f_equal.
    rewrite T, assoc_row. unfold fields.
    cbn [assoc String.eqb Ascii.eqb Bool.eqb]. now rewrite M.
  - intros M N.
    assert (I : In ("message", NULL) (changes (row this) old)).
    { unfold changes. apply filter_In. split.
      - apply assoc_In. rewrite assoc_row. unfold fields.
        cbn [assoc String.eqb Ascii.eqb Bool.eqb]. now rewrite M.
      - cbn [fst snd]. destruct (get old "message"); try reflexivity.
        now elim N. }
    assert (P : pending this table = true).
    { apply (pending_stored this old table F). intros E.
      rewrite E in I. destruct I. }
    assert (H : compressMessage this log = (inr this, log))
      by (unfold compressMessage; now rewrite M).
    rewrite (save_unfold now this this table log log P H).
    unfold written_as_is, update. rewrite F.
    destruct (changes (row this) old) as [|c0 cs0] eqn:C; [destruct I|].
    destruct (check_assigned_rejects entity (c0 :: cs0) "message"
                "null value in a required column" NULL I eq_refl)
      as [e E].
    rewrite E. now exists e.
Qed.

(** The statement above at an object that carries the key of a stored
    notification and a new status, and never had a message assigned. *)
Lemma update_with_an_unset_message_witness :
  valid (set_status "failed" MoreSamples.unset) = true
  /\ find (same_key (row (set_status "failed" MoreSamples.unset)))
       Samples.outbox
     = Some (write entity 1700000060 (row Samples.delivered))
  /\ message (set_status "failed" MoreSamples.unset) = JS.undefined
  /\ exists table',
       save (zlib := Zlib.stored Zlib.kMaxLength) 1700000120
         (set_status "failed" MoreSamples.unset) Samples.outbox []
       = (inr (set_status "failed" MoreSamples.unset, table'), [])
       /\ stored_message (set_status "failed" MoreSamples.unset) table'
          = Some (CBytes Samples.Hello).
Proof.
  assert (V : valid (set_status "failed" MoreSamples.unset) = true)
    by reflexivity.
  assert (F : find (same_key (row (set_status "failed" MoreSamples.unset)))
                Samples.outbox
              = Some (write entity 1700000060 (row Samples.delivered)))
    by reflexivity.
  assert (M : message (set_status "failed" MoreSamples.unset)
              = JS.undefined) by reflexivity.
  split; [exact V|]. split; [exact F|]. split; [exact M|].
  exact (proj1 (update_with_an_unset_message
                  (Zlib.stored Zlib.kMaxLength) 1700000120
                  (set_status "failed" MoreSamples.unset) _
                  Samples.outbox [] V F) M).
Defined.

End SaveFacts.
(** ** Sign-ups *)

Module SignupFacts.

Import User StoreFacts UserFacts.

(** X11.  Whatever sign-ups follow one another, accepted or refused, the
    table of users only grows at its end, and it never comes to hold a
    key, an email or a phone number twice. *)
Theorem creates_keep_users_unique (us : list (Z * User.t)) :
  forall users : Table,
    (forall k, In k ["uuid"; "phoneNumber"; "email"] ->
               distinct_on k users = true) ->
    (exists added, creates us users = users ++ added)
    /\ (forall k, In k ["uuid"; "phoneNumber"; "email"] ->
                  distinct_on k (creates us users) = true).
Proof.
  induction us as [|[now u] us IH]; intros users Hd.
  - split; [exists []; now rewrite app_nil_r | exact Hd].
  - cbn [creates].
    destruct (create now u users) as [[e|[]] t'] eqn:C; cbn [snd].
    + pose proof (insert_rejected entity now (row u) users e) as R.
      unfold create in C. rewrite C in R. cbn [fst snd] in R.
      rewrite (R eq_refl). now apply IH.
    + assert (Hd' : forall k, In k ["uuid"; "phoneNumber"; "email"] ->
                              distinct_on k t' = true).
      { intros k Hk.
        apply (insert_keeps_distinct entity now (row u) users t' k);
          [now rewrite unique_columns_User | now apply Hd | exact C]. }
      destruct (IH t' Hd') as [[added A] D]. split; [|exact D].
      apply insert_inversion in C. destruct C as [_ [_ ->]].
      exists (write entity now (row u) :: added).
      now rewrite A, <- app_assoc.
Qed.

(** The statement above at three sign-ups into an empty table, the second
    with the address of the first: two users are stored. *)
Lemma creates_keep_users_unique_witness :
  (forall k, In k ["uuid"; "phoneNumber"; "email"] -> distinct_on k [] = true)
  /\ List.length (creates MoreSamples.signups []) = 2%nat
  /\ (forall k, In k ["uuid"; "phoneNumber"; "email"] ->
                distinct_on k (creates MoreSamples.signups []) = true).
Proof.
  assert (D : forall k, In k ["uuid"; "phoneNumber"; "email"] ->
                        distinct_on k [] = true) by reflexivity.
  split; [exact D|]. split; [vm_compute; reflexivity|].
  exact (proj2 (creates_keep_users_unique MoreSamples.signups [] D)).
Defined.

(** X12.  A user that was created is found under its key, with the email,
    the PIN and the password hash as given, with the two validation flags
    false unless they were set, and with both dates at the time of the
    sign-up. *)
Theorem created_user_is_found (now : Z) (u : t) (users users' : Table) :
  create now u users = (inr tt, users') ->
  exists r,
    find (same_key (row u)) users' = Some r
    /\ get r "email" = CStr (email u)
    /\ get r "pin" = CStr (pin u)
    /\ get r "password_hash" = CStr (password_hash u)
    /\ get r "validatedEmail"
       = CBool (match validatedEmail u with Some b => b | None => false end)
    /\ get r "validatedPhoneNumber"
       = CBool (match validatedPhoneNumber u with
                | Some b => b
                | None => false
                end)
    /\ get r "createdAt" = CTime now
    /\ get r "updatedAt" = CTime now.
Proof.
  intros C. unfold create in C. apply insert_inversion in C.
  destruct C as [_ [Hc ->]].
  assert (F : existsb (same_key (row u)) users = false).
  { pose proof (conflict_none _ _ _ "uuid" Hc) as T.
    rewrite unique_columns_User in T. specialize (T (or_introl eq_refl)).
    rewrite (taken_ext _ _ (row u)) in T
      by (apply written_unique; cbn [In]; auto).
    exact T. }
  exists (write entity now (row u)).
  split.
  - apply find_app_fresh; [exact F|].
    unfold same_key, primary.
    rewrite (written_unique now u "uuid") by (cbn [In]; auto).
    apply cell_eqb_refl.
  - unfold row.
    destruct (validatedEmail u), (validatedPhoneNumber u);
      repeat split; reflexivity.
Qed.

(** The statement above at the first sign-up of the samples. *)
Lemma created_user_is_found_witness :
  create 1700000001 Samples.ann []
  = (inr tt, [write entity 1700000001 (row Samples.ann)])
  /\ exists r,
       find (same_key (row Samples.ann))
         [write entity 1700000001 (row Samples.ann)] = Some r
       /\ get r "email" = CStr "a@x.com"
       /\ get r "validatedEmail" = CBool false.
Proof.
  assert (C : create 1700000001 Samples.ann []
              = (inr tt, [write entity 1700000001 (row Samples.ann)]))
    by (vm_compute; reflexivity).
  split; [exact C|].
  destruct (created_user_is_found 1700000001 Samples.ann [] _ C)
    as [r [F [E [_ [_ [V _]]]]]].
  exists r. split; [exact F|]. split; [exact E | exact V].
Defined.

Lemma if_None_iff {A} (b : bool) (a : A) :
  (if b then None else Some a) = None <-> b = true.
Proof. destruct b; split; congruence. Qed.

(** A nullable [varchar(n)] column accepts an absent value and a string
    of at most [n] characters. *)
Lemma check_varchar_option (o : ColumnOptions) (n : N) (x : option string) :
  decorator o = ColumnDecorator -> type o = varchar ->
  length o = Some n -> nullable o = true ->
  check_cell o (cell_of_option x) = None <-> Notification.fits n x = true.
Proof.
  intros D T L U. unfold check_cell. rewrite D, T, L, U.
  destruct x as [s|]; cbn [cell_of_option Notification.fits];
    [apply if_None_iff | tauto].
Qed.


End SignupFacts.

(** ** Devices and studios *)

Module DeviceFacts.

Import StoreFacts SignupFacts.

Lemma unique_columns_Device : unique_columns Device.entity = ["uuid"].
Proof. reflexivity. Qed.

Lemma device_row_is_checked (d : Device.t) :
  check Device.entity (Device.row d) = None <-> Device.within d = true.
Proof.
  destruct d as [id nm tk us ac li lo].
  unfold check.
  replace (check_relations (relations Device.entity) _)
    with (@None JS.Error) by reflexivity.
  transitivity (check_columns (columns Device.entity)
                  (Device.row (Device.Build_t id nm tk us ac li lo))
                = None).
  { destruct (check_columns _ _); split; congruence. }
  rewrite check_columns_all.
  unfold Device.entity, extends, BaseUUIDEntity.entity. cbn [columns app].
  repeat rewrite Forall_cons_iff. rewrite Forall_nil_iff.
  cbn [fst snd]. unfold Device.row.
  cbn [get assoc String.eqb Ascii.eqb Bool.eqb Device.uuid Device.name
       Device.fcmToken Device.user Device.active Device.lastLoggedInTime
       Device.lastLoggedOutTime].
  rewrite (check_varchar_option _ 255 nm) by reflexivity.
  rewrite (check_varchar_option _ 255 tk) by reflexivity.
  unfold Device.within. cbn [Device.name Device.fcmToken].
  rewrite andb_true_iff.
  destruct ac, li, lo; cbn; tauto.
Qed.

(** X14.  A device is registered as soon as its key is new and its name
    and token fit their columns: nothing else is required, not even a
    user.  It is stored inactive unless [active] was set, with the time of
    the write as [lastLoggedInTime] unless one was given, and with the
    user and the logout time as given, absent included. *)
Theorem device_registration (now : Z) (d : Device.t) (devices : Table) :
  Device.within d = true ->
  taken "uuid" (Device.row d) devices = false ->
  let r := write Device.entity now (Device.row d) in
  insert Device.entity now (Device.row d) devices = (inr tt, devices ++ [r])
  /\ get r "active"
     = CBool (match Device.active d with Some b => b | None => false end)
  /\ get r "lastLoggedInTime"
     = CTime (match Device.lastLoggedInTime d with
              | Some t => t
              | None => now
              end)
  /\ get r "user" = cell_of_option (Device.user d)
  /\ get r "lastLoggedOutTime"
     = time_of_option (Device.lastLoggedOutTime d).
Proof.
  intros W F r. split.
  - apply insert_accepted; [now apply device_row_is_checked|].
    unfold conflict. rewrite unique_columns_Device. cbn [find].
    replace (taken "uuid" (write Device.entity now (Device.row d)) devices)
      with false by (symmetry; exact F).
    reflexivity.
  - unfold r, Device.row.
    destruct (Device.active d), (Device.lastLoggedInTime d),
      (Device.user d), (Device.lastLoggedOutTime d);
      repeat split; reflexivity.
Qed.

(** The statement above at a device that brings nothing but its key. *)
Lemma device_registration_witness :
  Device.within MoreSamples.phone = true
  /\ taken "uuid" (Device.row MoreSamples.phone) [] = false
  /\ insert Device.entity 1700000001 (Device.row MoreSamples.phone) []
     = (inr tt,
        [write Device.entity 1700000001 (Device.row MoreSamples.phone)])
  /\ get (write Device.entity 1700000001 (Device.row MoreSamples.phone))
       "active" = CBool false
  /\ get (write Device.entity 1700000001 (Device.row MoreSamples.phone))
       "lastLoggedInTime" = CTime 1700000001.
Proof.
  assert (W : Device.within MoreSamples.phone = true) by reflexivity.
  assert (F : taken "uuid" (Device.row MoreSamples.phone) [] = false)
    by reflexivity.
  destruct (device_registration 1700000001 MoreSamples.phone [] W F)
    as [I [A [L _]]].
  split; [exact W|]. split; [exact F|]. split; [exact I|].
  split; [exact A | exact L].
Defined.





End DeviceFacts.

(** ** Relations across the schema *)

Module SchemaFacts.

Import StoreFacts.




Lemma get_set_cell_same (k : string) (r : Row) :
  get (set_cell k NULL r) k = NULL.
Proof.
  unfold get. induction r as [|[k' c] r IH]; [reflexivity|].
  cbn [set_cell map fst assoc]. rewrite (String.eqb_sym k' k).
  destruct (String.eqb k k') eqn:E; cbn [assoc fst]; rewrite E;
    [reflexivity | exact IH].
Qed.

Lemma get_set_cell_other (k k' : string) (c : Cell) (r : Row) :
  k' <> k -> get (set_cell k c r) k' = get r k'.
Proof.
  intros N. unfold get. induction r as [|[k0 c0] r IH]; [reflexivity|].
  cbn [set_cell map fst assoc].
  destruct (String.eqb k0 k) eqn:E; cbn [assoc fst].
  - apply String.eqb_eq in E. subst k0.
    replace (String.eqb k' k) with false
      by (symmetry; now apply String.eqb_neq).
    exact IH.
  - destruct (String.eqb k' k0); [reflexivity | exact IH].
Qed.

(** X10.  Deleting a user or a studio never deletes a notification: both
    relations are declared with [onDelete: "SET NULL"], so the deletion is
    always allowed, every notification stays, the ones that referenced the
    deleted row lose that reference and nothing else, and the others are
    untouched. *)
Theorem notifications_outlive_their_user_and_studio (k id : string)
    (notifications : Table) :
  In k ["user"; "studio"] ->
  exists left_,
    Notification_on_delete k (CStr id) notifications = Some left_
    /\ List.length left_ = List.length notifications
    /\ map (fun r => get r k) left_
       = map (fun r => if references k (CStr id) r then NULL else get r k)
           notifications
    /\ (forall k', k' <> k ->
                   map (fun r => get r k') left_
                   = map (fun r => get r k') notifications).
Proof.
  intros Hk.
  exists (map (fun r => if references k (CStr id) r then set_cell k NULL r
                        else r) notifications).
  split; [|split; [|split]].
  - destruct Hk as [<- | [<- | []]]; reflexivity.
  - apply length_map.
  - rewrite map_map. apply map_ext. intros r.
    destruct (references k (CStr id) r);
      [apply get_set_cell_same | reflexivity].
  - intros k' N. rewrite map_map. apply map_ext. intros r.
    destruct (references k (CStr id) r);
      [now apply get_set_cell_other | reflexivity].
Qed.

(** The statement above at the deletion of user [u-1] with two stored
    notifications, one of them for that user. *)
Lemma notifications_outlive_their_user_and_studio_witness :
  In "user" ["user"; "studio"]
  /\ exists left_,
       Notification_on_delete "user" (CStr "u-1") MoreSamples.inbox
       = Some left_
       /\ List.length left_ = 2%nat
       /\ map (fun r => get r "user") left_ = [NULL; CStr "u-2"].
Proof.
  assert (I : In "user" ["user"; "studio"]) by (cbn [In]; auto).
  split; [exact I|].
  destruct (notifications_outlive_their_user_and_studio "user" "u-1"
              MoreSamples.inbox I) as [l [D [L [U _]]]].
  exists l. split; [exact D|]. split; [exact L | exact U].
Defined.

End SchemaFacts.

(** ** A save and the rows of the others *)

Module FrameFacts.

Import Async Notification StoreFacts NotificationFacts.

(** X19.  A save that resolves touches no row but the one of the object:
    the rows of the table under other keys are the same rows, in the same
    order, after the save as before. *)
Theorem save_leaves_the_other_rows (zlib : Zlib.Codec) (now : Z)
    (this this' : t) (table table' : Table) (log log' : Console) :
  save now this table log = (inr (this', table'), log') ->
  filter (fun r => negb (same_key (row this) r)) table'
  = filter (fun r => negb (same_key (row this) r)) table.
Proof.
  intros S.
  destruct (pending this table) eqn:P.
  - destruct (compressMessage_total this log) as [v [l [Hh _]]].
    rewrite (save_unfold now this _ table log l P Hh) in S.
    set (that := set_message v this) in *.
    unfold written_as_is in S.
    change (same_key (row that)) with (same_key (row this)) in S.
    destruct (find (same_key (row this)) table) as [old|] eqn:F.
    + destruct (update entity now (row that) table) as [[e|[]] t1] eqn:U;
        [discriminate|].
      injection S as _ <- _.
      exact (update_frame entity now (row that) table t1
               (PrimaryGeneratedColumn TypeORM.uuid) (keys_row that)
               eq_refl eq_refl U).
    + destruct (insert entity now (row that) table) as [[e|[]] t1] eqn:I;
        [discriminate|].
      injection S as _ <- _.
      apply insert_inversion in I. destruct I as [_ [_ ->]].
      rewrite filter_app. cbn [filter].
      replace (same_key (row this) (write entity now (row that))) with true
        by (symmetry; unfold same_key; apply cell_eqb_refl).
      cbn [negb]. apply app_nil_r.
  - destruct (save_idle now this table log P) as [I _].
    rewrite I in S. now injection S as _ <- _.
Qed.

(** The statement above at the first save of a notification into a table
    that holds another one. *)
Lemma save_leaves_the_other_rows_witness :
  exists this' table' log',
    save (zlib := Zlib.stored Zlib.kMaxLength) 1700000100
      MoreSamples.bare Samples.outbox [] = (inr (this', table'), log')
    /\ filter (fun r => negb (same_key (row MoreSamples.bare) r)) table'
       = Samples.outbox.
Proof.
  eexists _, _, _.
  assert (S : save (zlib := Zlib.stored Zlib.kMaxLength) 1700000100
                MoreSamples.bare Samples.outbox []
              = (inr (returned
                        (write entity 1700000100
                           (row (set_message
                                   (JS.Buf (Zlib.stream Samples.Hello))
                                   MoreSamples.bare)))
                        (set_message (JS.Buf (Zlib.stream Samples.Hello))
                           MoreSamples.bare),
                      Samples.outbox
                        ++ [write entity 1700000100
                              (row (set_message
                                      (JS.Buf (Zlib.stream Samples.Hello))
                                      MoreSamples.bare))]), []))
    by (vm_compute; reflexivity).
  split; [exact S|].
  exact (save_leaves_the_other_rows (Zlib.stored Zlib.kMaxLength)
           1700000100 MoreSamples.bare _ Samples.outbox _ [] [] S).
Defined.

End FrameFacts.
